(** * Household inventory: data model, forms and views

    A shallow embedding of the Django application [inventory]
    ([models.py], [forms.py], [views.py], [urls.py]) and the proofs of its
    quantity, expiration and deletion rules.

    Conventions of the embedding.
    - A database table is a finite map from primary key to row
      ([gmap Z row]); [Model.objects] is the table of that model.
    - A [date] is its proleptic ordinal (a day count), so that the
      difference of two dates is Python's [timedelta.days] and
      [d + timedelta(days=n)] is [d + n].
    - Python integers are unbounded: [IntegerField] values are [Z] (the
      range a database backend may put on the column is not represented).
    - The wall clock ([date.today()], [auto_now], [auto_now_add]) is an
      explicit argument.
    - A submitted form field is [Value v] once the framework's own field
      parsing has accepted it, [Blank] when it is absent or empty and
      [Malformed] when that parsing rejects it. *)

From Stdlib Require Import ZArith Lia Ascii.
From stdpp Require Import gmap strings list fin_maps sorting pretty.

Open Scope Z_scope.

Abbreviation pk := Z (only parsing).
Abbreviation date := Z (only parsing).
Abbreviation datetime := Z (only parsing).

(** ** models.py *)

Module StorageLocation.
Record t := Build {
  name : string;
  description : option string
}.
End StorageLocation.

Module Category.
Record t := Build {
  name : string;
  description : option string
}.
End Category.

Module Item.
Record t := Build {
  name : string;
  category : pk;                       (* on_delete=PROTECT *)
  default_storage_location : pk;       (* on_delete=PROTECT *)
  preferred_store : option string;
  typical_quantity_unit : string;
  low_stock_threshold : option Z;
  created_at : datetime;
  updated_at : datetime
}.
End Item.

Module InventoryEntry.
Record t := Build {
  item : pk;                           (* on_delete=CASCADE *)
  quantity : Z;
  storage_location : pk;               (* on_delete=PROTECT *)
  purchase_date : date;
  expiration_date : date;
  notes : option string;
  date_added : datetime
}.
End InventoryEntry.

Module UsageLog.
Record t := Build {
  inventory_entry : pk;                (* on_delete=CASCADE *)
  quantity_used : Z;
  usage_date : date;
  notes : option string;
  created_at : datetime
}.
End UsageLog.

(** The relational store: one table per model. *)
Record Store := MkStore {
  StorageLocation_objects : gmap Z StorageLocation.t;
  Category_objects : gmap Z Category.t;
  Item_objects : gmap Z Item.t;
  InventoryEntry_objects : gmap Z InventoryEntry.t;
  UsageLog_objects : gmap Z UsageLog.t
}.

Definition empty_store : Store := MkStore ∅ ∅ ∅ ∅ ∅.

(** Primary key given to a newly inserted row: one more than the largest
    key of the table. *)
Definition next_pk {A} (tbl : gmap Z A) : Z :=
  1 + foldr Z.max 0 ((map_to_list tbl).*1).

(** [queryset.filter(...)] on a table, as a list of (pk, row). *)
Definition rows {A} (tbl : gmap Z A) : list (Z * A) := map_to_list tbl.

(** Reverse relation [item.inventory_entries.all()]. *)
Definition Item_inventory_entries (s : Store) (item_pk : pk)
  : list (Z * InventoryEntry.t) :=
  filter (λ r, InventoryEntry.item r.2 = item_pk) (rows (InventoryEntry_objects s)).

(** Python's [sum] over a generator of integers. *)
Definition builtin_sum (l : list Z) : Z := foldl Z.add 0 l.

(** [Item.get_total_quantity] *)
Definition get_total_quantity (s : Store) (item_pk : pk) : Z :=
  builtin_sum ((λ r, InventoryEntry.quantity r.2) <$> Item_inventory_entries s item_pk).

(** [Item.is_low_stock] *)
Definition is_low_stock (s : Store) (item_pk : pk) (self : Item.t) : bool :=
  match Item.low_stock_threshold self with
  | None => false
  | Some threshold => get_total_quantity s item_pk <? threshold
  end.

(** [InventoryEntry.days_until_expiration], with [date.today()] as [today]. *)
Definition days_until_expiration (today : date) (self : InventoryEntry.t) : Z :=
  let delta := InventoryEntry.expiration_date self - today in
  delta.

(** [InventoryEntry.is_expiring_soon(days=7)] *)
Definition is_expiring_soon (today : date) (self : InventoryEntry.t) (days : Z) : bool :=
  (0 <=? days_until_expiration today self) && (days_until_expiration today self <=? days).

(** [InventoryEntry.is_expired] *)
Definition is_expired (today : date) (self : InventoryEntry.t) : bool :=
  days_until_expiration today self <? 0.


(** ** forms.py *)

(** What the browser submitted for one form field, after the framework's
    own parsing of the field. *)
Inductive Submitted (A : Type) :=
| Blank
| Malformed
| Value (v : A).
Arguments Blank {A}.
Arguments Malformed {A}.
Arguments Value {A} v.

(** The validation errors of the forms.  The first four are raised by the
    framework's fields and model validation, the others by [forms.py]:
    - [threshold_not_positive]: 'Low stock threshold must be greater than 0'
    - [quantity_not_positive]: 'Quantity must be greater than 0'
    - [expiration_before_purchase]:
      'Expiration date cannot be before purchase date'
    - [quantity_used_not_positive]: 'Quantity used must be greater than 0'
    - [exceeds_available n]: 'Cannot use more than available quantity (n)' *)
Inductive ErrorCode :=
| required
| invalid
| invalid_choice
| unique
| threshold_not_positive
| quantity_not_positive
| expiration_before_purchase
| quantity_used_not_positive
| exceeds_available (available : Z).

#[global] Instance ErrorCode_eq_dec : EqDecision ErrorCode.
Proof. solve_decision. Defined.

(** A [ValidationError] attached to a form field. *)
Definition ValidationError : Type := string * ErrorCode.

(** A required form field. *)
Definition required_field {A} (x : Submitted A) : ErrorCode + A :=
  match x with
  | Blank => inl required
  | Malformed => inl invalid
  | Value v => inr v
  end.

(** A form field with [blank=True, null=True]. *)
Definition optional_field {A} (x : Submitted A) : ErrorCode + option A :=
  match x with
  | Blank => inr None
  | Malformed => inl invalid
  | Value v => inr (Some v)
  end.

(** A [ModelChoiceField]: the submitted key must select a row of the
    field's queryset; the cleaned value is that model instance. *)
Definition model_choice_field {A} (queryset : gmap Z A) (x : Submitted Z)
  : ErrorCode + (Z * A) :=
  match x with
  | Blank => inl required
  | Malformed => inl invalid_choice
  | Value k =>
      match queryset !! k with
      | Some row => inr (k, row)
      | None => inl invalid_choice
      end
  end.

(** The per-field hook [clean_<name>], run only when the field itself was
    accepted. *)
Definition and_then {A B} (r : ErrorCode + A) (hook : A → ErrorCode + B)
  : ErrorCode + B :=
  match r with
  | inl e => inl e
  | inr v => hook v
  end.

(** [cleaned_data] holds a field only when it raised no error. *)
Definition cleaned {A} (r : ErrorCode + A) : option A :=
  match r with
  | inl _ => None
  | inr v => Some v
  end.

Definition field_errors {A} (name : string) (r : ErrorCode + A)
  : list ValidationError :=
  match r with
  | inl e => [(name, e)]
  | inr _ => []
  end.

(** Uniqueness of [name] ([unique=True]), checked by the model form against
    every row other than the instance being edited. *)
Definition name_taken {A} (get_name : A → string) (tbl : gmap Z A)
    (instance : option Z) (n : string) : bool :=
  bool_decide (Exists (λ r, Some r.1 ≠ instance ∧ get_name r.2 = n) (rows tbl)).

Definition unique_name {A} (get_name : A → string) (tbl : gmap Z A)
    (instance : option Z) (n : string) : ErrorCode + string :=
  if name_taken get_name tbl instance n then inl unique else inr n.

Module StorageLocationForm.
Record POST := Build {
  name : Submitted string;
  description : Submitted string
}.

Definition full_clean (s : Store) (instance : option Z) (post : POST)
  : option StorageLocation.t * list ValidationError :=
  let name_r := and_then (required_field (name post))
                  (unique_name StorageLocation.name (StorageLocation_objects s) instance) in
  let description_r := optional_field (description post) in
  (match cleaned name_r, cleaned description_r with
   | Some n, Some d => Some (StorageLocation.Build n d)
   | _, _ => None
   end,
   field_errors "name" name_r ++ field_errors "description" description_r).
End StorageLocationForm.

Module CategoryForm.
Record POST := Build {
  name : Submitted string;
  description : Submitted string
}.

Definition full_clean (s : Store) (instance : option Z) (post : POST)
  : option Category.t * list ValidationError :=
  let name_r := and_then (required_field (name post))
                  (unique_name Category.name (Category_objects s) instance) in
  let description_r := optional_field (description post) in
  (match cleaned name_r, cleaned description_r with
   | Some n, Some d => Some (Category.Build n d)
   | _, _ => None
   end,
   field_errors "name" name_r ++ field_errors "description" description_r).
End CategoryForm.

Module ItemForm.
Record POST := Build {
  name : Submitted string;
  category : Submitted Z;
  default_storage_location : Submitted Z;
  preferred_store : Submitted string;
  typical_quantity_unit : Submitted string;
  low_stock_threshold : Submitted Z
}.

(** [clean_low_stock_threshold] *)
Definition clean_low_stock_threshold (threshold : option Z) : ErrorCode + option Z :=
  match threshold with
  | Some t => if bool_decide (t <= 0) then inl threshold_not_positive else inr threshold
  | None => inr threshold
  end.

(** Field cleaning; a form without errors yields the instance, still
    waiting for its two timestamps. *)
Definition full_clean (s : Store) (post : POST)
  : option (datetime → datetime → Item.t) * list ValidationError :=
  let name_r := required_field (name post) in
  let category_r := model_choice_field (Category_objects s) (category post) in
  let location_r :=
    model_choice_field (StorageLocation_objects s) (default_storage_location post) in
  let store_r := optional_field (preferred_store post) in
  let unit_r := required_field (typical_quantity_unit post) in
  let threshold_r :=
    and_then (optional_field (low_stock_threshold post)) clean_low_stock_threshold in
  (match cleaned name_r, cleaned category_r, cleaned location_r,
         cleaned store_r, cleaned unit_r, cleaned threshold_r with
   | Some n, Some c, Some l, Some st, Some u, Some t =>
       Some (Item.Build n c.1 l.1 st u t)
   | _, _, _, _, _, _ => None
   end,
   field_errors "name" name_r ++ field_errors "category" category_r
   ++ field_errors "default_storage_location" location_r
   ++ field_errors "preferred_store" store_r
   ++ field_errors "typical_quantity_unit" unit_r
   ++ field_errors "low_stock_threshold" threshold_r).
End ItemForm.

Module InventoryEntryForm.
Record POST := Build {
  item : Submitted Z;
  quantity : Submitted Z;
  storage_location : Submitted Z;
  purchase_date : Submitted Z;
  expiration_date : Submitted Z;
  notes : Submitted string
}.

Module cleaned_data.
Record t := Build {
  item : option Z;
  quantity : option Z;
  storage_location : option Z;
  purchase_date : option Z;
  expiration_date : option Z;
  notes : option (option string)
}.
End cleaned_data.

(** [clean_quantity] *)
Definition clean_quantity (quantity : Z) : ErrorCode + Z :=
  if bool_decide (quantity <= 0) then inl quantity_not_positive else inr quantity.

(** [clean]: the raised [ValidationError] is a dict keyed by field. *)
Definition clean (cd : cleaned_data.t) : list ValidationError + cleaned_data.t :=
  match cleaned_data.purchase_date cd, cleaned_data.expiration_date cd with
  | Some purchase_date, Some expiration_date =>
      if bool_decide (expiration_date < purchase_date)
      then inl [("expiration_date", expiration_before_purchase)]
      else inr cd
  | _, _ => inr cd
  end.

(** [add_error] removes the offending field from [cleaned_data]. *)
Definition del_expiration_date (cd : cleaned_data.t) : cleaned_data.t :=
  cleaned_data.Build (cleaned_data.item cd) (cleaned_data.quantity cd)
    (cleaned_data.storage_location cd) (cleaned_data.purchase_date cd) None
    (cleaned_data.notes cd).

Definition clean_fields (s : Store) (post : POST)
  : cleaned_data.t * list ValidationError :=
  let item_r := model_choice_field (Item_objects s) (item post) in
  let quantity_r := and_then (required_field (quantity post)) clean_quantity in
  let location_r :=
    model_choice_field (StorageLocation_objects s) (storage_location post) in
  let purchase_r := required_field (purchase_date post) in
  let expiration_r := required_field (expiration_date post) in
  let notes_r := optional_field (notes post) in
  (cleaned_data.Build (fst <$> cleaned item_r) (cleaned quantity_r)
     (fst <$> cleaned location_r) (cleaned purchase_r) (cleaned expiration_r)
     (cleaned notes_r),
   field_errors "item" item_r ++ field_errors "quantity" quantity_r
   ++ field_errors "storage_location" location_r
   ++ field_errors "purchase_date" purchase_r
   ++ field_errors "expiration_date" expiration_r
   ++ field_errors "notes" notes_r).

Definition full_clean (s : Store) (post : POST)
  : cleaned_data.t * list ValidationError :=
  let '(cd, errors) := clean_fields s post in
  match clean cd with
  | inl raised => (del_expiration_date cd, errors ++ raised)
  | inr cd' => (cd', errors)
  end.

(** The model instance built from [cleaned_data]; [date_added] is
    [auto_now_add] and not a form field. *)
Definition construct_instance (cd : cleaned_data.t) (date_added : datetime)
  : option InventoryEntry.t :=
  match cleaned_data.item cd, cleaned_data.quantity cd,
        cleaned_data.storage_location cd, cleaned_data.purchase_date cd,
        cleaned_data.expiration_date cd, cleaned_data.notes cd with
  | Some i, Some q, Some l, Some p, Some e, Some n =>
      Some (InventoryEntry.Build i q l p e n date_added)
  | _, _, _, _, _, _ => None
  end.
End InventoryEntryForm.

Module UsageLogForm.
Record POST := Build {
  inventory_entry : Submitted Z;
  quantity_used : Submitted Z;
  usage_date : Submitted Z;
  notes : Submitted string
}.

Module cleaned_data.
Record t := Build {
  inventory_entry : option (Z * InventoryEntry.t);
  quantity_used : option Z;
  usage_date : option Z;
  notes : option (option string)
}.
End cleaned_data.

(** [__init__]: only inventory entries with quantity > 0 can be chosen. *)
Definition inventory_entry_queryset (s : Store) : gmap Z InventoryEntry.t :=
  filter (λ r, 0 < InventoryEntry.quantity r.2) (InventoryEntry_objects s).

(** [clean_quantity_used] *)
Definition clean_quantity_used (quantity : Z) : ErrorCode + Z :=
  if bool_decide (quantity <= 0) then inl quantity_used_not_positive else inr quantity.

(** [clean].  The guard [if inventory_entry and quantity_used] is Python
    truthiness: a model instance is true, an integer is true unless 0. *)
Definition clean (cd : cleaned_data.t) : list ValidationError + cleaned_data.t :=
  match cleaned_data.inventory_entry cd, cleaned_data.quantity_used cd with
  | Some inventory_entry, Some quantity_used =>
      if bool_decide (quantity_used ≠ 0) then
        if bool_decide (quantity_used > InventoryEntry.quantity inventory_entry.2)
        then inl [("quantity_used",
                   exceeds_available (InventoryEntry.quantity inventory_entry.2))]
        else inr cd
      else inr cd
  | _, _ => inr cd
  end.

Definition del_quantity_used (cd : cleaned_data.t) : cleaned_data.t :=
  cleaned_data.Build (cleaned_data.inventory_entry cd) None
    (cleaned_data.usage_date cd) (cleaned_data.notes cd).

Definition clean_fields (s : Store) (post : POST)
  : cleaned_data.t * list ValidationError :=
  let entry_r := model_choice_field (inventory_entry_queryset s) (inventory_entry post) in
  let quantity_r := and_then (required_field (quantity_used post)) clean_quantity_used in
  let date_r := required_field (usage_date post) in
  let notes_r := optional_field (notes post) in
  (cleaned_data.Build (cleaned entry_r) (cleaned quantity_r) (cleaned date_r)
     (cleaned notes_r),
   field_errors "inventory_entry" entry_r ++ field_errors "quantity_used" quantity_r
   ++ field_errors "usage_date" date_r ++ field_errors "notes" notes_r).

Definition full_clean (s : Store) (post : POST)
  : cleaned_data.t * list ValidationError :=
  let '(cd, errors) := clean_fields s post in
  match clean cd with
  | inl raised => (del_quantity_used cd, errors ++ raised)
  | inr cd' => (cd', errors)
  end.

(** The model instance built from [cleaned_data], together with the
    inventory entry instance it refers to. *)
Definition construct_instance (cd : cleaned_data.t) (created_at : datetime)
  : option (UsageLog.t * (Z * InventoryEntry.t)) :=
  match cleaned_data.inventory_entry cd, cleaned_data.quantity_used cd,
        cleaned_data.usage_date cd, cleaned_data.notes cd with
  | Some e, Some q, Some d, Some n =>
      Some (UsageLog.Build e.1 q d n created_at, e)
  | _, _, _, _ => None
  end.
End UsageLogForm.

(** ** Deletion in the store

    [Model.delete()] follows the [on_delete] declarations of [models.py]:
    PROTECT refuses the deletion while a referencing row exists (nothing
    is deleted), CASCADE deletes the referencing rows as well. *)

Inductive ProtectedError := Protected.

Definition referenced_by {A} (fk : A → pk) (tbl : gmap Z A) (k : pk) : bool :=
  bool_decide (Exists (λ r, fk r.2 = k) (rows tbl)).

(** [StorageLocation.delete]: protected by [Item.default_storage_location]
    and by [InventoryEntry.storage_location]. *)
Definition StorageLocation_delete (s : Store) (k : pk) : ProtectedError + Store :=
  if referenced_by Item.default_storage_location (Item_objects s) k
     || referenced_by InventoryEntry.storage_location (InventoryEntry_objects s) k
  then inl Protected
  else inr (MkStore (delete k (StorageLocation_objects s)) (Category_objects s)
              (Item_objects s) (InventoryEntry_objects s) (UsageLog_objects s)).

(** [Category.delete]: protected by [Item.category]. *)
Definition Category_delete (s : Store) (k : pk) : ProtectedError + Store :=
  if referenced_by Item.category (Item_objects s) k
  then inl Protected
  else inr (MkStore (StorageLocation_objects s) (delete k (Category_objects s))
              (Item_objects s) (InventoryEntry_objects s) (UsageLog_objects s)).

(** [InventoryEntry.delete]: cascades to the entry's usage logs. *)
Definition InventoryEntry_delete (s : Store) (k : pk) : Store :=
  MkStore (StorageLocation_objects s) (Category_objects s) (Item_objects s)
    (delete k (InventoryEntry_objects s))
    (filter (λ r, UsageLog.inventory_entry r.2 ≠ k) (UsageLog_objects s)).

(** [Item.delete]: cascades to the item's inventory entries, and from
    those to their usage logs. *)
Definition Item_delete (s : Store) (k : pk) : Store :=
  let collected := filter (λ r, InventoryEntry.item r.2 = k) (InventoryEntry_objects s) in
  MkStore (StorageLocation_objects s) (Category_objects s)
    (delete k (Item_objects s))
    (filter (λ r, InventoryEntry.item r.2 ≠ k) (InventoryEntry_objects s))
    (filter (λ r, collected !! UsageLog.inventory_entry r.2 = None) (UsageLog_objects s)).

(** ** views.py: the views that write *)

(** [request.method]: the views only ask whether it is 'POST'; [GET]
    stands for every other method. *)
Inductive Method (A : Type) :=
| GET
| POST (data : A).
Arguments GET {A}.
Arguments POST {A} data.

Inductive Message :=
| messages_success
| messages_error.

(** What a view returns: a rendered page (a form page carries the form's
    errors), a redirect with the flash message set before it, or the 404 of
    [get_object_or_404].  [Http500] stands for the exception a view would
    raise by saving a form that lacks a required value; no request gets
    there ([write_views_never_fail]). *)
Inductive Response :=
| render (template : string) (errors : list ValidationError)
| redirect (to : string) (message : Message)
| Http404
| Http500.

Definition save_new {A} (tbl : gmap Z A) (row : A) : gmap Z A :=
  <[next_pk tbl := row]> tbl.

Definition inventory_entry_create (now : datetime) (s : Store)
    (request : Method InventoryEntryForm.POST) : Response * Store :=
  match request with
  | POST data =>
      match InventoryEntryForm.full_clean s data with
      | (cd, []) =>
          match InventoryEntryForm.construct_instance cd now with
          | Some entry =>
              (redirect "inventory:inventory_list" messages_success,
               MkStore (StorageLocation_objects s) (Category_objects s) (Item_objects s)
                 (save_new (InventoryEntry_objects s) entry) (UsageLog_objects s))
          | None => (Http500, s)
          end
      | (_, errors) => (render "inventory/inventory_entry_form.html" errors, s)
      end
  | GET => (render "inventory/inventory_entry_form.html" [], s)
  end.

Definition inventory_entry_update (s : Store) (k : pk)
    (request : Method InventoryEntryForm.POST) : Response * Store :=
  match InventoryEntry_objects s !! k with
  | None => (Http404, s)
  | Some entry =>
      match request with
      | POST data =>
          match InventoryEntryForm.full_clean s data with
          | (cd, []) =>
              match InventoryEntryForm.construct_instance cd
                      (InventoryEntry.date_added entry) with
              | Some entry' =>
                  (redirect "inventory:inventory_list" messages_success,
                   MkStore (StorageLocation_objects s) (Category_objects s)
                     (Item_objects s) (<[k := entry']> (InventoryEntry_objects s))
                     (UsageLog_objects s))
              | None => (Http500, s)
              end
          | (_, errors) => (render "inventory/inventory_entry_form.html" errors, s)
          end
      | GET => (render "inventory/inventory_entry_form.html" [], s)
      end
  end.

Definition inventory_entry_delete (s : Store) (k : pk) (request : Method unit)
  : Response * Store :=
  match InventoryEntry_objects s !! k with
  | None => (Http404, s)
  | Some _ =>
      match request with
      | POST _ =>
          (redirect "inventory:inventory_list" messages_success, InventoryEntry_delete s k)
      | GET => (render "inventory/inventory_entry_confirm_delete.html" [], s)
      end
  end.

Definition item_create (now : datetime) (s : Store) (request : Method ItemForm.POST)
  : Response * Store :=
  match request with
  | POST data =>
      match ItemForm.full_clean s data with
      | (Some item, []) =>
          (redirect "inventory:item_detail" messages_success,
           MkStore (StorageLocation_objects s) (Category_objects s)
             (save_new (Item_objects s) (item now now))
             (InventoryEntry_objects s) (UsageLog_objects s))
      | (None, []) => (Http500, s)
      | (_, errors) => (render "inventory/item_form.html" errors, s)
      end
  | GET => (render "inventory/item_form.html" [], s)
  end.

Definition item_update (now : datetime) (s : Store) (k : pk)
    (request : Method ItemForm.POST) : Response * Store :=
  match Item_objects s !! k with
  | None => (Http404, s)
  | Some old =>
      match request with
      | POST data =>
          match ItemForm.full_clean s data with
          | (Some item, []) =>
              (redirect "inventory:item_detail" messages_success,
               MkStore (StorageLocation_objects s) (Category_objects s)
                 (<[k := item (Item.created_at old) now]> (Item_objects s))
                 (InventoryEntry_objects s) (UsageLog_objects s))
          | (None, []) => (Http500, s)
          | (_, errors) => (render "inventory/item_form.html" errors, s)
          end
      | GET => (render "inventory/item_form.html" [], s)
      end
  end.

Definition item_delete (s : Store) (k : pk) (request : Method unit)
  : Response * Store :=
  match Item_objects s !! k with
  | None => (Http404, s)
  | Some _ =>
      match request with
      | POST _ => (redirect "inventory:item_list" messages_success, Item_delete s k)
      | GET => (render "inventory/item_confirm_delete.html" [], s)
      end
  end.

Definition location_create (s : Store) (request : Method StorageLocationForm.POST)
  : Response * Store :=
  match request with
  | POST data =>
      match StorageLocationForm.full_clean s None data with
      | (Some location, []) =>
          (redirect "inventory:location_list" messages_success,
           MkStore (save_new (StorageLocation_objects s) location) (Category_objects s)
             (Item_objects s) (InventoryEntry_objects s) (UsageLog_objects s))
      | (None, []) => (Http500, s)
      | (_, errors) => (render "inventory/location_form.html" errors, s)
      end
  | GET => (render "inventory/location_form.html" [], s)
  end.

Definition location_update (s : Store) (k : pk)
    (request : Method StorageLocationForm.POST) : Response * Store :=
  match StorageLocation_objects s !! k with
  | None => (Http404, s)
  | Some _ =>
      match request with
      | POST data =>
          match StorageLocationForm.full_clean s (Some k) data with
          | (Some location, []) =>
              (redirect "inventory:location_list" messages_success,
               MkStore (<[k := location]> (StorageLocation_objects s))
                 (Category_objects s) (Item_objects s) (InventoryEntry_objects s)
                 (UsageLog_objects s))
          | (None, []) => (Http500, s)
          | (_, errors) => (render "inventory/location_form.html" errors, s)
          end
      | GET => (render "inventory/location_form.html" [], s)
      end
  end.

(** The [try ... except Exception] around [location.delete()] turns the
    store's refusal into an error message. *)
Definition location_delete (s : Store) (k : pk) (request : Method unit)
  : Response * Store :=
  match StorageLocation_objects s !! k with
  | None => (Http404, s)
  | Some _ =>
      match request with
      | POST _ =>
          match StorageLocation_delete s k with
          | inr s' => (redirect "inventory:location_list" messages_success, s')
          | inl Protected => (redirect "inventory:location_list" messages_error, s)
          end
      | GET => (render "inventory/location_confirm_delete.html" [], s)
      end
  end.

Definition category_create (s : Store) (request : Method CategoryForm.POST)
  : Response * Store :=
  match request with
  | POST data =>
      match CategoryForm.full_clean s None data with
      | (Some category, []) =>
          (redirect "inventory:category_list" messages_success,
           MkStore (StorageLocation_objects s) (save_new (Category_objects s) category)
             (Item_objects s) (InventoryEntry_objects s) (UsageLog_objects s))
      | (None, []) => (Http500, s)
      | (_, errors) => (render "inventory/category_form.html" errors, s)
      end
  | GET => (render "inventory/category_form.html" [], s)
  end.

Definition category_update (s : Store) (k : pk)
    (request : Method CategoryForm.POST) : Response * Store :=
  match Category_objects s !! k with
  | None => (Http404, s)
  | Some _ =>
      match request with
      | POST data =>
          match CategoryForm.full_clean s (Some k) data with
          | (Some category, []) =>
              (redirect "inventory:category_list" messages_success,
               MkStore (StorageLocation_objects s)
                 (<[k := category]> (Category_objects s)) (Item_objects s)
                 (InventoryEntry_objects s) (UsageLog_objects s))
          | (None, []) => (Http500, s)
          | (_, errors) => (render "inventory/category_form.html" errors, s)
          end
      | GET => (render "inventory/category_form.html" [], s)
      end
  end.

Definition category_delete (s : Store) (k : pk) (request : Method unit)
  : Response * Store :=
  match Category_objects s !! k with
  | None => (Http404, s)
  | Some _ =>
      match request with
      | POST _ =>
          match Category_delete s k with
          | inr s' => (redirect "inventory:category_list" messages_success, s')
          | inl Protected => (redirect "inventory:category_list" messages_error, s)
          end
      | GET => (render "inventory/category_confirm_delete.html" [], s)
      end
  end.

(** Assignment to [inventory_entry.quantity]. *)
Definition with_quantity (e : InventoryEntry.t) (quantity : Z) : InventoryEntry.t :=
  InventoryEntry.Build (InventoryEntry.item e) quantity
    (InventoryEntry.storage_location e) (InventoryEntry.purchase_date e)
    (InventoryEntry.expiration_date e) (InventoryEntry.notes e)
    (InventoryEntry.date_added e).

(** [usage_log_create]: save the usage log, then take its quantity off the
    inventory entry the form selected and save that entry. *)
Definition usage_log_create (now : datetime) (s : Store)
    (request : Method UsageLogForm.POST) : Response * Store :=
  match request with
  | POST data =>
      match UsageLogForm.full_clean s data with
      | (cd, []) =>
          match UsageLogForm.construct_instance cd now with
          | Some (usage_log, inventory_entry) =>
              let inventory_entry' :=
                with_quantity inventory_entry.2
                  (InventoryEntry.quantity inventory_entry.2
                   - UsageLog.quantity_used usage_log) in
              (redirect "inventory:inventory_list" messages_success,
               MkStore (StorageLocation_objects s) (Category_objects s) (Item_objects s)
                 (<[inventory_entry.1 := inventory_entry']> (InventoryEntry_objects s))
                 (save_new (UsageLog_objects s) usage_log))
          | None => (Http500, s)
          end
      | (_, errors) => (render "inventory/usage_log_form.html" errors, s)
      end
  | GET => (render "inventory/usage_log_form.html" [], s)
  end.

(** ** urls.py: the requests the application routes

    The read-only views ([dashboard], [inventory_list], [item_list],
    [item_detail], [location_list], [category_list], [usage_log_list])
    render their page, or answer 404 for an unknown item, and leave the
    store as it is.  Requests are handled one at a time. *)
Inductive Request :=
| read_only_view (page : option string)
| req_inventory_entry_create (now : datetime) (r : Method InventoryEntryForm.POST)
| req_inventory_entry_update (k : pk) (r : Method InventoryEntryForm.POST)
| req_inventory_entry_delete (k : pk) (r : Method unit)
| req_item_create (now : datetime) (r : Method ItemForm.POST)
| req_item_update (now : datetime) (k : pk) (r : Method ItemForm.POST)
| req_item_delete (k : pk) (r : Method unit)
| req_location_create (r : Method StorageLocationForm.POST)
| req_location_update (k : pk) (r : Method StorageLocationForm.POST)
| req_location_delete (k : pk) (r : Method unit)
| req_category_create (r : Method CategoryForm.POST)
| req_category_update (k : pk) (r : Method CategoryForm.POST)
| req_category_delete (k : pk) (r : Method unit)
| req_usage_log_create (now : datetime) (r : Method UsageLogForm.POST).

Definition handle (s : Store) (req : Request) : Response * Store :=
  match req with
  | read_only_view (Some template) => (render template [], s)
  | read_only_view None => (Http404, s)
  | req_inventory_entry_create now r => inventory_entry_create now s r
  | req_inventory_entry_update k r => inventory_entry_update s k r
  | req_inventory_entry_delete k r => inventory_entry_delete s k r
  | req_item_create now r => item_create now s r
  | req_item_update now k r => item_update now s k r
  | req_item_delete k r => item_delete s k r
  | req_location_create r => location_create s r
  | req_location_update k r => location_update s k r
  | req_location_delete k r => location_delete s k r
  | req_category_create r => category_create s r
  | req_category_update k r => category_update s k r
  | req_category_delete k r => category_delete s k r
  | req_usage_log_create now r => usage_log_create now s r
  end.

(** The stores the application can be in: the empty database, and whatever
    a sequence of requests makes of it. *)
Inductive reachable : Store → Prop :=
| reachable_empty : reachable empty_store
| reachable_step s req : reachable s → reachable (handle s req).2.

(** ** views.py: the views that read

    Foreign keys of stored rows resolve (the database enforces it), so the
    joins of [select_related] drop no row and are not represented. *)

(** [order_by('expiration_date')]; rows with equal dates stay in the order
    in which the table enumerates them. *)
Definition expiration_le (a b : Z * InventoryEntry.t) : Prop :=
  InventoryEntry.expiration_date a.2 ≤ InventoryEntry.expiration_date b.2.

#[global] Instance expiration_le_dec : RelDecision expiration_le.
Proof. intros a b. unfold expiration_le. apply _. Defined.

Definition order_by_expiration_date (l : list (Z * InventoryEntry.t))
  : list (Z * InventoryEntry.t) :=
  merge_sort expiration_le l.

Module dashboard_context.
Record t := Build {
  total_items : Z;
  expiring_soon : list (Z * InventoryEntry.t);
  expiring_soon_count : nat;
  expired_count : nat
}.
End dashboard_context.

(** [dashboard], for the statistics on quantities and expiration (the
    per-item and per-location summaries of the page are not represented). *)
Definition dashboard (today : date) (s : Store) : dashboard_context.t :=
  let total_items :=
    builtin_sum ((λ r, InventoryEntry.quantity r.2) <$> rows (InventoryEntry_objects s)) in
  let seven_days := today + 7 in
  let expiring_soon :=
    take 5 (order_by_expiration_date
      (filter (λ r, today ≤ InventoryEntry.expiration_date r.2
                    ∧ InventoryEntry.expiration_date r.2 ≤ seven_days
                    ∧ 0 < InventoryEntry.quantity r.2)
         (rows (InventoryEntry_objects s)))) in
  let expired_items :=
    length (filter (λ r, InventoryEntry.expiration_date r.2 < today
                         ∧ 0 < InventoryEntry.quantity r.2)
              (rows (InventoryEntry_objects s))) in
  dashboard_context.Build total_items expiring_soon (length expiring_soon) expired_items.

(** [icontains]: substring test that ignores the case of ASCII letters. *)
Definition lower_ascii (c : ascii) : ascii :=
  let n := nat_of_ascii c in
  if ((65 <=? n) && (n <=? 90))%nat then ascii_of_nat (n + 32) else c.

Fixpoint lower (s : string) : string :=
  match s with
  | EmptyString => EmptyString
  | String c s' => String (lower_ascii c) (lower s')
  end.

Fixpoint contains (needle hay : string) : bool :=
  String.prefix needle hay
  || match hay with
     | EmptyString => false
     | String _ hay' => contains needle hay'
     end.

Definition icontains (text needle : string) : bool :=
  contains (lower needle) (lower text).

(** The query string of [inventory_list]; [None] is an absent or empty
    parameter.  [category] and [location] are the submitted ids. *)
Module inventory_list_GET.
Record t := Build {
  search : option string;
  category : option Z;
  location : option Z;
  status : option string
}.
End inventory_list_GET.

(** The [status] branch of [inventory_list].  The view's literal window
    [timedelta(days=7)] is the argument [days], which [inventory_list]
    sets to 7. *)
Definition status_filter (days : Z) (status : option string) (today : date)
    (e : InventoryEntry.t) : bool :=
  if bool_decide (status = Some "expiring") then
    let seven_days := today + days in
    bool_decide (today ≤ InventoryEntry.expiration_date e)
    && bool_decide (InventoryEntry.expiration_date e ≤ seven_days)
  else if bool_decide (status = Some "expired") then
    bool_decide (InventoryEntry.expiration_date e < today)
  else if bool_decide (status = Some "fresh") then
    let seven_days := today + days in
    bool_decide (seven_days < InventoryEntry.expiration_date e)
  else true.

Definition search_filter (s : Store) (search : option string) (e : InventoryEntry.t)
  : bool :=
  match search with
  | None | Some EmptyString => true
  | Some q =>
      match Item_objects s !! InventoryEntry.item e with
      | Some i => icontains (Item.name i) q
      | None => false
      end
      || match InventoryEntry.notes e with
         | Some n => icontains n q
         | None => false
         end
  end.

Definition category_filter (s : Store) (category : option Z) (e : InventoryEntry.t)
  : bool :=
  match category with
  | None => true
  | Some c =>
      match Item_objects s !! InventoryEntry.item e with
      | Some i => bool_decide (Item.category i = c)
      | None => false
      end
  end.

Definition location_filter (location : option Z) (e : InventoryEntry.t) : bool :=
  match location with
  | None => true
  | Some l => bool_decide (InventoryEntry.storage_location e = l)
  end.

(** [inventory_list]: the [entries] of the page. *)
Definition inventory_list (today : date) (s : Store) (get : inventory_list_GET.t)
  : list (Z * InventoryEntry.t) :=
  filter (λ r, status_filter 7 (inventory_list_GET.status get) today r.2 = true)
    (filter (λ r, location_filter (inventory_list_GET.location get) r.2 = true)
       (filter (λ r, category_filter s (inventory_list_GET.category get) r.2 = true)
          (filter (λ r, search_filter s (inventory_list_GET.search get) r.2 = true)
             (order_by_expiration_date (rows (InventoryEntry_objects s)))))).

(** ** views.py: the other read views *)

(** [order_by('name')]: names compared character by character. *)
Definition name_le {A} (get_name : A → string) (a b : Z * A) : Prop :=
  String.leb (get_name a.2) (get_name b.2) = true.

#[global] Instance name_le_dec {A} (get_name : A → string) : RelDecision (name_le get_name).
Proof. intros a b. unfold name_le. apply _. Defined.

Definition order_by_name {A} (get_name : A → string) (l : list (Z * A)) : list (Z * A) :=
  merge_sort (name_le get_name) l.

(** [annotate(item_count=Count('items'))] on a category. *)
Definition Category_item_count (s : Store) (k : pk) : nat :=
  length (filter (λ r, Item.category r.2 = k) (rows (Item_objects s))).

(** [category_list]: the categories with their item counts, by name. *)
Definition category_list (s : Store) : list (Z * Category.t * nat) :=
  (λ r, (r, Category_item_count s r.1))
  <$> order_by_name Category.name (rows (Category_objects s)).

(** [annotate(item_count=Count('inventory_entries',
    filter=Q(inventory_entries__quantity__gt=0)))] on a storage location. *)
Definition StorageLocation_item_count (s : Store) (k : pk) : nat :=
  length (filter (λ r, InventoryEntry.storage_location r.2 = k
                       ∧ 0 < InventoryEntry.quantity r.2)
            (rows (InventoryEntry_objects s))).

(** [location_list] *)
Definition location_list (s : Store) : list (Z * StorageLocation.t * nat) :=
  (λ r, (r, StorageLocation_item_count s r.1))
  <$> order_by_name StorageLocation.name (rows (StorageLocation_objects s)).

(** [order_by('-usage_date')] *)
Definition usage_date_ge (a b : Z * UsageLog.t) : Prop :=
  UsageLog.usage_date b.2 ≤ UsageLog.usage_date a.2.

#[global] Instance usage_date_ge_dec : RelDecision usage_date_ge.
Proof. intros a b. unfold usage_date_ge. apply _. Defined.

Module item_detail_context.
Record t := Build {
  item : Item.t;
  total_quantity : Z;
  inventory_entries : list (Z * InventoryEntry.t);
  recent_usage : list (Z * UsageLog.t);
  is_low_stock : bool
}.
End item_detail_context.

(** [item_detail]; [None] is the 404 of [get_object_or_404]. *)
Definition item_detail (s : Store) (k : pk) : option item_detail_context.t :=
  match Item_objects s !! k with
  | None => None
  | Some item =>
      let inventory_entries :=
        order_by_expiration_date
          (filter (λ r, 0 < InventoryEntry.quantity r.2) (Item_inventory_entries s k)) in
      let recent_usage :=
        take 10 (merge_sort usage_date_ge
          (filter (λ r, InventoryEntry.item
                          <$> InventoryEntry_objects s !! UsageLog.inventory_entry r.2
                        = Some k)
             (rows (UsageLog_objects s)))) in
      Some (item_detail_context.Build item (get_total_quantity s k) inventory_entries
              recent_usage (is_low_stock s k item))
  end.

Module low_stock_row.
Record t := Build {
  item : Z * Item.t;
  current_quantity : Z;
  threshold : option Z
}.
End low_stock_row.

(** The low-stock loop of [dashboard]: the items with a threshold, in the
    order of their names, that are low in stock; the first five. *)
Definition dashboard_low_stock_items (s : Store) : list low_stock_row.t :=
  take 5
    ((λ r, low_stock_row.Build r (get_total_quantity s r.1) (Item.low_stock_threshold r.2))
     <$> filter (λ r, is_low_stock s r.1 r.2 = true)
           (filter (λ r, Item.low_stock_threshold r.2 ≠ None)
              (order_by_name Item.name (rows (Item_objects s))))).

(** ** admin.py *)

Module InventoryEntryAdmin.
(** [InventoryEntryAdmin.days_until_expiration]: the column of the admin
    list; [pretty] is the decimal notation of an integer. *)
Definition days_until_expiration (today : date) (obj : InventoryEntry.t) : string :=
  let days := days_until_expiration today obj in
  if bool_decide (days < 0) then "Expired " +:+ pretty (Z.abs days) +:+ " days ago"
  else if bool_decide (days = 0) then "Expires today"
  else pretty days +:+ " days".
End InventoryEntryAdmin.

(** ** A household: the scenario of a gallon of milk

    Location "Fridge", category "Dairy", item "Milk" (unit "gallon",
    low-stock threshold 2), and one inventory entry of 3 gallons bought on
    2024-01-01 (ordinal 738886) that expires on 2024-01-10. *)

Definition run (s : Store) (reqs : list Request) : Store :=
  foldl (λ s req, (handle s req).2) s reqs.

Definition milk_requests : list Request :=
  [ req_location_create (POST (StorageLocationForm.Build (Value "Fridge") Blank));
    req_category_create (POST (CategoryForm.Build (Value "Dairy") Blank));
    req_item_create 100
      (POST (ItemForm.Build (Value "Milk") (Value 1) (Value 1) Blank
               (Value "gallon") (Value 2)));
    req_inventory_entry_create 101
      (POST (InventoryEntryForm.Build (Value 1) (Value 3) (Value 1)
               (Value 738886) (Value 738895) Blank)) ].

Definition milk_store : Store := run empty_store milk_requests.

Definition milk_entry : InventoryEntry.t :=
  InventoryEntry.Build 1 3 1 738886 738895 None 101.

Definition use_milk (now : datetime) (quantity_used : Z) : Request :=
  req_usage_log_create now
    (POST (UsageLogForm.Build (Value 1) (Value quantity_used) (Value 738890) Blank)).

(** The same household once the three gallons have been used. *)
Definition depleted_store : Store := run milk_store [use_milk 102 3].

(** The household with a second location "Pantry", a second category
    "Produce", an item "Apples" without threshold kept in the pantry (4 lb,
    expiring on 2024-01-15), a third, empty location "Freezer", an empty
    category "Frozen", and one gallon of the milk used. *)
Definition pantry_requests : list Request :=
  [ req_location_create (POST (StorageLocationForm.Build (Value "Pantry") Blank));
    req_category_create (POST (CategoryForm.Build (Value "Produce") Blank));
    req_item_create 110
      (POST (ItemForm.Build (Value "Apples") (Value 2) (Value 2) Blank
               (Value "lb") Blank));
    req_inventory_entry_create 111
      (POST (InventoryEntryForm.Build (Value 2) (Value 4) (Value 2)
               (Value 738887) (Value 738900) Blank));
    req_location_create (POST (StorageLocationForm.Build (Value "Freezer") Blank));
    req_category_create (POST (CategoryForm.Build (Value "Frozen") Blank));
    use_milk 112 1 ].

Definition pantry_store : Store := run milk_store pantry_requests.

Definition apples_entry : InventoryEntry.t :=
  InventoryEntry.Build 2 4 2 738887 738900 None 111.

(** An update of entry 1 that sets its quantity to 3 and its notes. *)
Definition restock : InventoryEntryForm.POST :=
  InventoryEntryForm.Build (Value 1) (Value 3) (Value 1)
    (Value 738886) (Value 738895) (Value "restocked").

(** ** Predicates of the statements *)

(** Whether a response reports the exceeded quantity of [forms.py]. *)
Definition reports_insufficient_quantity (r : Response) : Prop :=
  ∃ template errors available,
    r = render template errors ∧ ("quantity_used", exceeds_available available) ∈ errors.

(** What every stored inventory entry satisfies. *)
Definition entry_ok (e : InventoryEntry.t) : Prop :=
  0 ≤ InventoryEntry.quantity e
  ∧ InventoryEntry.purchase_date e ≤ InventoryEntry.expiration_date e.

Definition store_ok (s : Store) : Prop :=
  map_Forall (λ _ e, entry_ok e) (InventoryEntry_objects s).

(** Every foreign key of a stored row selects a stored row. *)
Definition references_resolve (s : Store) : Prop :=
  (∀ k i, Item_objects s !! k = Some i →
     is_Some (Category_objects s !! Item.category i)
     ∧ is_Some (StorageLocation_objects s !! Item.default_storage_location i))
  ∧ (∀ k e, InventoryEntry_objects s !! k = Some e →
       is_Some (Item_objects s !! InventoryEntry.item e)
       ∧ is_Some (StorageLocation_objects s !! InventoryEntry.storage_location e))
  ∧ (∀ k u, UsageLog_objects s !! k = Some u →
       is_Some (InventoryEntry_objects s !! UsageLog.inventory_entry u)).

(** No two rows of a table have the same name. *)
Definition names_unique {A} (get_name : A → string) (tbl : gmap Z A) : Prop :=
  ∀ j1 j2 r1 r2,
    tbl !! j1 = Some r1 → tbl !! j2 = Some r2 → get_name r1 = get_name r2 → j1 = j2.

(** Every threshold that is set is positive. *)
Definition thresholds_positive (s : Store) : Prop :=
  ∀ k i t, Item_objects s !! k = Some i → Item.low_stock_threshold i = Some t → 0 < t.

(** What an inventory entry adds to the total of item [k]. *)
Definition entry_share (e : InventoryEntry.t) (k : pk) : Z :=
  if decide (InventoryEntry.item e = k) then InventoryEntry.quantity e else 0.

(** What the usage logs of an inventory entry add up to. *)
Definition quantity_used_total (s : Store) (entry_pk : pk) : Z :=
  builtin_sum
    ((λ r, UsageLog.quantity_used r.2)
     <$> filter (λ r, UsageLog.inventory_entry r.2 = entry_pk) (rows (UsageLog_objects s))).

(** * Properties *)

Ltac not_in_errors H :=
  repeat (apply elem_of_cons in H as [H|H]; [discriminate H|]);
  by apply elem_of_nil in H.


(** ** The store *)

Lemma foldr_max_ge (l : list Z) (k : Z) : k ∈ l → k ≤ foldr Z.max 0 l.
Proof.
  induction l as [|x l IH]; intros Hin.
  - by apply elem_of_nil in Hin.
  - apply elem_of_cons in Hin as [->|Hin]; simpl; [lia|].
    specialize (IH Hin). lia.
Qed.

Lemma next_pk_fresh {A} (tbl : gmap Z A) : tbl !! next_pk tbl = None.
Proof.
  destruct (tbl !! next_pk tbl) as [x|] eqn:Hx; [|done].
  exfalso. apply elem_of_map_to_list in Hx.
  assert (next_pk tbl ∈ (map_to_list tbl).*1) as Hin.
  { apply list_elem_of_fmap. by exists (next_pk tbl, x). }
  apply foldr_max_ge in Hin. unfold next_pk in Hin at 1. lia.
Qed.

Lemma lookup_save_new {A} (tbl : gmap Z A) (row : A) (k : Z) (x : A) :
  tbl !! k = Some x → save_new tbl row !! k = Some x.
Proof.
  intros Hk. unfold save_new. rewrite lookup_insert_ne; [done|].
  intros <-. by rewrite next_pk_fresh in Hk.
Qed.

Lemma referenced_by_true {A} (fk : A → pk) (tbl : gmap Z A) (k : pk) :
  referenced_by fk tbl k = true ↔ ∃ j row, tbl !! j = Some row ∧ fk row = k.
Proof.
  unfold referenced_by, rows. rewrite bool_decide_eq_true, Exists_exists. split.
  - intros [[j row] [Hin Hfk]]. apply elem_of_map_to_list in Hin. by exists j, row.
  - intros (j & row & Hin & Hfk). exists (j, row). split; [|done].
    by apply elem_of_map_to_list.
Qed.

(** ** The forms *)

Lemma field_errors_nil {A} (name : string) (r : ErrorCode + A) :
  field_errors name r = [] → ∃ v, r = inr v.
Proof. destruct r as [e|v]; [done|]. by exists v. Qed.

Lemma model_choice_field_inr {A} (queryset : gmap Z A) (x : Submitted Z) (v : Z * A) :
  model_choice_field queryset x = inr v → x = Value v.1 ∧ queryset !! v.1 = Some v.2.
Proof.
  destruct x as [| |k]; simpl; try done.
  destruct (queryset !! k) as [row|] eqn:Hk; [|done].
  intros [= <-]. done.
Qed.

Lemma required_field_inr {A} (x : Submitted A) (v : A) :
  required_field x = inr v → x = Value v.
Proof. destruct x; simpl; congruence. Qed.

Lemma and_then_inr {A B} (r : ErrorCode + A) (hook : A → ErrorCode + B) (w : B) :
  and_then r hook = inr w → ∃ v, r = inr v ∧ hook v = inr w.
Proof. destruct r as [e|v]; simpl; [done|]. intros H. by exists v. Qed.

(** A usage form without errors: the entry it selects is in stock and the
    quantity used is positive and within the entry's quantity. *)
Lemma UsageLogForm_valid_inv (s : Store) (data : UsageLogForm.POST)
    (cd : UsageLogForm.cleaned_data.t) :
  UsageLogForm.full_clean s data = (cd, []) →
  ∃ k e q d n,
    UsageLogForm.inventory_entry data = Value k
    ∧ UsageLogForm.quantity_used data = Value q
    ∧ UsageLogForm.usage_date data = Value d
    ∧ optional_field (UsageLogForm.notes data) = inr n
    ∧ InventoryEntry_objects s !! k = Some e
    ∧ 0 < q ∧ q ≤ InventoryEntry.quantity e
    ∧ cd = UsageLogForm.cleaned_data.Build (Some (k, e)) (Some q) (Some d) (Some n).
Proof.
  unfold UsageLogForm.full_clean, UsageLogForm.clean_fields.
  destruct (UsageLogForm.clean _) as [raised|cd'] eqn:Hclean.
  { intros [= _ Herr]. apply app_nil in Herr as [_ Herr].
    unfold UsageLogForm.clean in Hclean. simpl in Hclean.
    repeat case_match; simplify_eq. }
  intros [= -> Herr].
  apply app_nil in Herr as [(ke & He)%field_errors_nil Herr].
  apply app_nil in Herr as [(q & Hq)%field_errors_nil Herr].
  apply app_nil in Herr as [(d & Hd)%field_errors_nil (n & Hn)%field_errors_nil].
  rewrite He, Hq, Hd, Hn in Hclean. simpl in Hclean.
  destruct ke as [k e].
  apply model_choice_field_inr in He as [Hk He]. simpl in Hk, He.
  apply map_lookup_filter_Some in He as [He Hpos]. simpl in Hpos.
  apply and_then_inr in Hq as (q' & Hq & Hhook).
  apply required_field_inr in Hq. apply required_field_inr in Hd.
  unfold UsageLogForm.clean_quantity_used in Hhook.
  case_bool_decide; simplify_eq.
  unfold UsageLogForm.clean in Hclean. simpl in Hclean.
  rewrite bool_decide_true in Hclean by lia.
  case_bool_decide; simplify_eq.
  exists k, e, q, d, n. repeat split; auto; lia.
Qed.

(** ** The usage transaction *)

(** Every usage log the view saves was within the quantity of its entry,
    and the entry lost exactly that quantity. *)
Lemma usage_log_create_success_inv (now : datetime) (s s' : Store)
    (data : UsageLogForm.POST) (to : string) (m : Message) :
  usage_log_create now s (POST data) = (redirect to m, s') →
  ∃ k e q d n,
    UsageLogForm.inventory_entry data = Value k
    ∧ UsageLogForm.quantity_used data = Value q
    ∧ InventoryEntry_objects s !! k = Some e
    ∧ 0 < q ∧ q ≤ InventoryEntry.quantity e
    ∧ s' = MkStore (StorageLocation_objects s) (Category_objects s) (Item_objects s)
             (<[k := with_quantity e (InventoryEntry.quantity e - q)]>
                (InventoryEntry_objects s))
             (save_new (UsageLog_objects s) (UsageLog.Build k q d n now)).
Proof.
  unfold usage_log_create.
  destruct (UsageLogForm.full_clean s data) as [cd errors] eqn:Hform.
  destruct errors as [|err errors]; [|done].
  apply UsageLogForm_valid_inv in Hform
    as (k & e & q & d & n & Hk & Hq & _ & _ & He & Hq0 & Hqe & ->).
  simpl. intros [= _ _ <-]. exists k, e, q, d, n. done.
Qed.

(** C1. A usage of [quantity_used] with 0 < quantity_used <= entry.quantity
    succeeds: it saves, under a new key, a usage log that records
    [quantity_used], and the entry's quantity afterwards is its quantity
    before minus [quantity_used], exactly. *)
Theorem usage_log_create_decrements (now : datetime) (s : Store) (k : pk)
    (e : InventoryEntry.t) (quantity_used : Z) (usage_date : date)
    (notes_field : Submitted string) (notes : option string) :
  InventoryEntry_objects s !! k = Some e →
  0 < quantity_used →
  quantity_used ≤ InventoryEntry.quantity e →
  optional_field notes_field = inr notes →
  ∃ s',
    usage_log_create now s
      (POST (UsageLogForm.Build (Value k) (Value quantity_used) (Value usage_date)
               notes_field))
    = (redirect "inventory:inventory_list" messages_success, s')
    ∧ UsageLog_objects s !! next_pk (UsageLog_objects s) = None
    ∧ UsageLog_objects s'
      = <[next_pk (UsageLog_objects s)
          := UsageLog.Build k quantity_used usage_date notes now]> (UsageLog_objects s)
    ∧ InventoryEntry_objects s'
      = <[k := with_quantity e (InventoryEntry.quantity e - quantity_used)]>
          (InventoryEntry_objects s)
    ∧ InventoryEntry.quantity <$> InventoryEntry_objects s' !! k
      = Some (InventoryEntry.quantity e - quantity_used).
Proof.
  intros He Hpos Hle Hnotes.
  assert (UsageLogForm.inventory_entry_queryset s !! k = Some e) as Hqs.
  { apply map_lookup_filter_Some. split; [done|]. simpl. lia. }
  unfold usage_log_create, UsageLogForm.full_clean, UsageLogForm.clean_fields.
  simpl. rewrite Hqs, Hnotes. unfold UsageLogForm.clean_quantity_used.
  rewrite bool_decide_false by lia. unfold UsageLogForm.clean. simpl.
  rewrite bool_decide_true by lia. rewrite bool_decide_false by lia. simpl.
  eexists. split; [reflexivity|]. simpl.
  split; [apply next_pk_fresh|]. split; [done|]. split; [done|].
  by rewrite lookup_insert_eq.
Qed.

Lemma usage_log_create_decrements_witness :
  ∃ s',
    usage_log_create 102 milk_store
      (POST (UsageLogForm.Build (Value 1) (Value 1) (Value 738890) Blank))
    = (redirect "inventory:inventory_list" messages_success, s')
    ∧ UsageLog_objects milk_store !! next_pk (UsageLog_objects milk_store) = None
    ∧ UsageLog_objects s'
      = <[next_pk (UsageLog_objects milk_store)
          := UsageLog.Build 1 1 738890 None 102]> (UsageLog_objects milk_store)
    ∧ InventoryEntry_objects s'
      = <[1 := with_quantity milk_entry (InventoryEntry.quantity milk_entry - 1)]>
          (InventoryEntry_objects milk_store)
    ∧ InventoryEntry.quantity <$> InventoryEntry_objects s' !! 1
      = Some (InventoryEntry.quantity milk_entry - 1).
Proof.
  apply (usage_log_create_decrements 102 milk_store 1 milk_entry 1 738890 Blank None).
  - vm_compute. reflexivity.
  - lia.
  - simpl. lia.
  - reflexivity.
Defined.

(** C2 (as the code has it). A usage of more than the entry's quantity
    fails and changes nothing in the store.  For an entry in stock the
    form reports that the quantity exceeds what is available; an entry
    without stock is no selectable choice of the form, which then reports
    an invalid choice and not the exceeded quantity. *)
Theorem usage_log_create_insufficient (now : datetime) (s : Store) (k : pk)
    (e : InventoryEntry.t) (quantity_used : Z) (usage_date : Submitted Z)
    (notes : Submitted string) :
  InventoryEntry_objects s !! k = Some e →
  InventoryEntry.quantity e < quantity_used →
  ∃ errors,
    usage_log_create now s
      (POST (UsageLogForm.Build (Value k) (Value quantity_used) usage_date notes))
    = (render "inventory/usage_log_form.html" errors, s)
    ∧ errors ≠ []
    ∧ (0 < InventoryEntry.quantity e →
       ("quantity_used", exceeds_available (InventoryEntry.quantity e)) ∈ errors)
    ∧ (InventoryEntry.quantity e ≤ 0 →
       ("inventory_entry", invalid_choice) ∈ errors
       ∧ ∀ available, ("quantity_used", exceeds_available available) ∉ errors).
Proof.
  intros He Hlt.
  unfold usage_log_create, UsageLogForm.full_clean, UsageLogForm.clean_fields. simpl.
  destruct (decide (0 < InventoryEntry.quantity e)) as [Hpos|Hnpos].
  - assert (UsageLogForm.inventory_entry_queryset s !! k = Some e) as ->.
    { apply map_lookup_filter_Some. split; [done|]. simpl. lia. }
    unfold UsageLogForm.clean_quantity_used. rewrite bool_decide_false by lia.
    unfold UsageLogForm.clean. simpl.
    rewrite bool_decide_true by lia. rewrite bool_decide_true by lia.
    destruct usage_date, notes; simpl;
      (eexists; split; [reflexivity|]; split; [done|]; split; [|lia]; intros _;
       repeat first [apply list_elem_of_here | apply list_elem_of_further]).
  - assert (UsageLogForm.inventory_entry_queryset s !! k = None) as ->.
    { apply map_lookup_filter_None. right. intros e'. rewrite He. intros [= <-].
      simpl. lia. }
    unfold UsageLogForm.clean. simpl. eexists. split; [reflexivity|].
    split; [done|]. split; [lia|]. intros _. split.
    + apply elem_of_cons. by left.
    + intros available Hin. unfold UsageLogForm.clean_quantity_used in Hin.
      case_bool_decide; destruct usage_date, notes; simpl in Hin; not_in_errors Hin.
Qed.

Lemma usage_log_create_insufficient_witness :
  ∃ errors,
    usage_log_create 103 milk_store
      (POST (UsageLogForm.Build (Value 1) (Value 5) (Value 738890) Blank))
    = (render "inventory/usage_log_form.html" errors, milk_store)
    ∧ errors ≠ []
    ∧ ("quantity_used", exceeds_available 3) ∈ errors.
Proof.
  destruct (usage_log_create_insufficient 103 milk_store 1 milk_entry 5
              (Value 738890) Blank) as (errors & Hrun & Hne & Hpos & _).
  - vm_compute. reflexivity.
  - simpl. lia.
  - exists errors. split; [exact Hrun|]. split; [exact Hne|].
    apply Hpos. simpl. lia.
Defined.

(** C2, as stated, does not hold for an entry without stock: entry 1 of
    the depleted household has quantity 0, a usage of 1 exceeds it, and the
    response reports an invalid choice of entry, not an exceeded
    quantity. *)
Lemma usage_log_create_depleted_counterexample :
  InventoryEntry.quantity <$> InventoryEntry_objects depleted_store !! 1 = Some 0
  ∧ usage_log_create 103 depleted_store
      (POST (UsageLogForm.Build (Value 1) (Value 1) (Value 738891) Blank))
    = (render "inventory/usage_log_form.html" [("inventory_entry", invalid_choice)],
       depleted_store)
  ∧ ¬ reports_insufficient_quantity
        (usage_log_create 103 depleted_store
           (POST (UsageLogForm.Build (Value 1) (Value 1) (Value 738891) Blank))).1.
Proof.
  assert (usage_log_create 103 depleted_store
            (POST (UsageLogForm.Build (Value 1) (Value 1) (Value 738891) Blank))
          = (render "inventory/usage_log_form.html" [("inventory_entry", invalid_choice)],
             depleted_store)) as Hrun.
  { vm_compute. reflexivity. }
  split; [vm_compute; reflexivity|]. split; [exact Hrun|].
  rewrite Hrun. simpl. intros (template & errors & available & [= _ <-] & Hin).
  not_in_errors Hin.
Qed.

(** ** The inventory entry form *)

(** An entry form without errors: every field was submitted, the quantity
    is positive and the expiration date is not before the purchase date. *)
Lemma InventoryEntryForm_valid_inv (s : Store) (data : InventoryEntryForm.POST)
    (cd : InventoryEntryForm.cleaned_data.t) :
  InventoryEntryForm.full_clean s data = (cd, []) →
  ∃ i q l p x n,
    InventoryEntryForm.item data = Value i
    ∧ InventoryEntryForm.quantity data = Value q
    ∧ InventoryEntryForm.storage_location data = Value l
    ∧ InventoryEntryForm.purchase_date data = Value p
    ∧ InventoryEntryForm.expiration_date data = Value x
    ∧ optional_field (InventoryEntryForm.notes data) = inr n
    ∧ is_Some (Item_objects s !! i)
    ∧ is_Some (StorageLocation_objects s !! l)
    ∧ 0 < q ∧ p ≤ x
    ∧ cd = InventoryEntryForm.cleaned_data.Build
             (Some i) (Some q) (Some l) (Some p) (Some x) (Some n).
Proof.
  unfold InventoryEntryForm.full_clean, InventoryEntryForm.clean_fields.
  destruct (InventoryEntryForm.clean _) as [raised|cd'] eqn:Hclean.
  { intros [= _ Herr]. apply app_nil in Herr as [_ Herr].
    unfold InventoryEntryForm.clean in Hclean. simpl in Hclean.
    repeat case_match; simplify_eq. }
  intros [= -> Herr].
  apply app_nil in Herr as [(ir & Hi)%field_errors_nil Herr].
  apply app_nil in Herr as [(q & Hq)%field_errors_nil Herr].
  apply app_nil in Herr as [(lr & Hl)%field_errors_nil Herr].
  apply app_nil in Herr as [(p & Hp)%field_errors_nil Herr].
  apply app_nil in Herr as [(x & Hx)%field_errors_nil (n & Hn)%field_errors_nil].
  rewrite Hi, Hq, Hl, Hp, Hx, Hn in Hclean.
  unfold InventoryEntryForm.clean in Hclean. simpl in Hclean.
  destruct ir as [i irow], lr as [l lrow].
  apply model_choice_field_inr in Hi as [Hi Hirow].
  apply model_choice_field_inr in Hl as [Hl Hlrow]. simpl in *.
  apply and_then_inr in Hq as (q' & Hq & Hhook).
  apply required_field_inr in Hq, Hp, Hx.
  unfold InventoryEntryForm.clean_quantity in Hhook.
  repeat case_bool_decide; simplify_eq.
  exists i, q, l, p, x, n. repeat split; eauto; lia.
Qed.

Lemma InventoryEntryForm_valid_instance (s : Store) (data : InventoryEntryForm.POST)
    (cd : InventoryEntryForm.cleaned_data.t) (date_added : datetime) :
  InventoryEntryForm.full_clean s data = (cd, []) →
  ∃ e, InventoryEntryForm.construct_instance cd date_added = Some e
       ∧ 0 < InventoryEntry.quantity e
       ∧ InventoryEntry.purchase_date e ≤ InventoryEntry.expiration_date e.
Proof.
  intros (i & q & l & p & x & n & _ & _ & _ & _ & _ & _ & _ & _ & Hq & Hpx & ->)
    %InventoryEntryForm_valid_inv.
  eexists. split; [reflexivity|]. done.
Qed.

(** ** Invariants of the reachable stores *)

Lemma inventory_entry_create_ok now s r :
  store_ok s → store_ok (inventory_entry_create now s r).2.
Proof.
  intros Hok. unfold inventory_entry_create. destruct r as [|data]; [done|].
  destruct (InventoryEntryForm.full_clean s data) as [cd errors] eqn:Hform.
  destruct errors; [|done].
  destruct (InventoryEntryForm_valid_instance _ _ _ now Hform) as (e & -> & Hq & Hd).
  simpl. apply map_Forall_insert_2; [|done]. split; [lia|done].
Qed.

Lemma inventory_entry_update_ok s k r :
  store_ok s → store_ok (inventory_entry_update s k r).2.
Proof.
  intros Hok. unfold inventory_entry_update.
  destruct (InventoryEntry_objects s !! k) as [old|]; [|done].
  destruct r as [|data]; [done|].
  destruct (InventoryEntryForm.full_clean s data) as [cd errors] eqn:Hform.
  destruct errors; [|done].
  destruct (InventoryEntryForm_valid_instance _ _ _ (InventoryEntry.date_added old) Hform)
    as (e & -> & Hq & Hd).
  simpl. apply map_Forall_insert_2; [|done]. split; [lia|done].
Qed.

Lemma usage_log_create_ok now s r :
  store_ok s → store_ok (usage_log_create now s r).2.
Proof.
  intros Hok. destruct r as [|data]; [done|].
  destruct (usage_log_create now s (POST data)) as [resp s'] eqn:Hrun.
  destruct resp as [t errs|to m| |].
  - revert Hrun. unfold usage_log_create. repeat case_match; intros; simplify_eq; done.
  - apply usage_log_create_success_inv in Hrun
      as (k & e & q & d & n & _ & _ & He & Hq & Hle & ->).
    simpl. apply map_Forall_insert_2; [|done].
    destruct (Hok k e He) as [_ Hd]. split; simpl; [lia|done].
  - revert Hrun. unfold usage_log_create. repeat case_match; intros; simplify_eq; done.
  - revert Hrun. unfold usage_log_create. repeat case_match; intros; simplify_eq; done.
Qed.

Lemma delete_views_ok s k r :
  store_ok s →
  store_ok (inventory_entry_delete s k r).2 ∧ store_ok (item_delete s k r).2.
Proof.
  intros Hok. unfold inventory_entry_delete, item_delete. split.
  - destruct (InventoryEntry_objects s !! k); [|done]. destruct r; [done|].
    simpl. by apply map_Forall_delete.
  - destruct (Item_objects s !! k); [|done]. destruct r; [done|].
    simpl. intros j e [He _]%map_lookup_filter_Some. by apply (Hok j e).
Qed.

Lemma handle_ok (s : Store) (req : Request) : store_ok s → store_ok (handle s req).2.
Proof.
  intros Hok. destruct req as [[template|]| | | | | | | | | | | | |]; simpl; try done.
  - by apply inventory_entry_create_ok.
  - by apply inventory_entry_update_ok.
  - by apply delete_views_ok.
  - unfold item_create. repeat case_match; done.
  - unfold item_update. repeat case_match; done.
  - by apply delete_views_ok.
  - unfold location_create. repeat case_match; done.
  - unfold location_update. repeat case_match; done.
  - unfold location_delete, StorageLocation_delete. repeat case_match; simplify_eq; done.
  - unfold category_create. repeat case_match; done.
  - unfold category_update. repeat case_match; done.
  - unfold category_delete, Category_delete. repeat case_match; simplify_eq; done.
  - by apply usage_log_create_ok.
Qed.

Lemma reachable_ok (s : Store) : reachable s → store_ok s.
Proof.
  induction 1 as [|s req _ IH].
  - apply map_Forall_empty.
  - by apply handle_ok.
Qed.

Lemma reachable_run (s : Store) (reqs : list Request) :
  reachable s → reachable (run s reqs).
Proof.
  revert s. induction reqs as [|req reqs IH]; intros s Hs; [done|].
  simpl. apply IH. by constructor.
Qed.

(** C3. In every store the application can reach, every inventory entry
    has quantity >= 0: creating and updating an entry require a positive
    quantity and a usage takes at most the quantity the entry has. *)
Theorem quantity_never_negative (s : Store) (k : pk) (e : InventoryEntry.t) :
  reachable s →
  InventoryEntry_objects s !! k = Some e →
  0 ≤ InventoryEntry.quantity e.
Proof. intros Hs He. by destruct (reachable_ok s Hs k e He). Qed.

Lemma quantity_never_negative_witness :
  reachable depleted_store
  ∧ InventoryEntry_objects depleted_store !! 1 = Some (with_quantity milk_entry 0)
  ∧ 0 ≤ InventoryEntry.quantity (with_quantity milk_entry 0).
Proof.
  assert (reachable depleted_store) as Hs.
  { unfold depleted_store, milk_store. do 2 apply reachable_run. constructor. }
  assert (InventoryEntry_objects depleted_store !! 1 = Some (with_quantity milk_entry 0))
    as He by (vm_compute; reflexivity).
  split; [exact Hs|]. split; [exact He|].
  exact (quantity_never_negative depleted_store 1 (with_quantity milk_entry 0) Hs He).
Defined.

(** ** Writing an inventory entry *)

Lemma inventory_entry_create_invalid now s data cd errors :
  InventoryEntryForm.full_clean s data = (cd, errors) →
  errors ≠ [] →
  inventory_entry_create now s (POST data)
  = (render "inventory/inventory_entry_form.html" errors, s).
Proof. intros Hform Hne. unfold inventory_entry_create. rewrite Hform. by destruct errors. Qed.

Lemma inventory_entry_update_invalid s k data cd errors :
  is_Some (InventoryEntry_objects s !! k) →
  InventoryEntryForm.full_clean s data = (cd, errors) →
  errors ≠ [] →
  inventory_entry_update s k (POST data)
  = (render "inventory/inventory_entry_form.html" errors, s).
Proof.
  intros [old Hold] Hform Hne. unfold inventory_entry_update.
  rewrite Hold, Hform. by destruct errors.
Qed.

Lemma InventoryEntryForm_dates_rejected s data p x :
  InventoryEntryForm.purchase_date data = Value p →
  InventoryEntryForm.expiration_date data = Value x →
  x < p →
  ∃ cd errors,
    InventoryEntryForm.full_clean s data = (cd, errors)
    ∧ ("expiration_date", expiration_before_purchase) ∈ errors.
Proof.
  intros Hp Hx Hlt.
  unfold InventoryEntryForm.full_clean, InventoryEntryForm.clean_fields,
    InventoryEntryForm.clean.
  rewrite Hp, Hx. simpl. rewrite bool_decide_true by lia.
  eexists _, _. split; [reflexivity|].
  apply elem_of_app. right. apply list_elem_of_here.
Qed.

Lemma InventoryEntryForm_quantity_rejected s data q :
  InventoryEntryForm.quantity data = Value q →
  q ≤ 0 →
  ∃ cd errors,
    InventoryEntryForm.full_clean s data = (cd, errors)
    ∧ ("quantity", quantity_not_positive) ∈ errors.
Proof.
  intros Hq Hle.
  unfold InventoryEntryForm.full_clean, InventoryEntryForm.clean_fields.
  rewrite Hq. simpl. unfold InventoryEntryForm.clean_quantity.
  rewrite bool_decide_true by lia. simpl.
  assert (∀ a b c : list ValidationError,
            ("quantity", quantity_not_positive)
            ∈ a ++ [("quantity", quantity_not_positive)] ++ b ++ c) as Hin.
  { intros a b c. apply elem_of_app. right. apply list_elem_of_here. }
  destruct (InventoryEntryForm.clean _) as [raised|cd']; eexists _, _;
    (split; [reflexivity|]).
  - rewrite <- !(assoc_L (++)). apply Hin.
  - rewrite <- (app_nil_r (_ ++ _)), <- !(assoc_L (++)). apply Hin.
Qed.

Lemma elem_of_not_nil {A} (x : A) (l : list A) : x ∈ l → l ≠ [].
Proof. intros Hin ->. by apply elem_of_nil in Hin. Qed.

(** C7. Creating or updating an inventory entry with an expiration date
    before its purchase date fails with the validation error on
    [expiration_date] and leaves the store as it was; and in every
    reachable store each inventory entry has
    expiration_date >= purchase_date. *)
Theorem expiration_before_purchase_rejected (now : datetime) (s : Store)
    (item quantity storage_location : Submitted Z) (purchase_date expiration_date : date)
    (notes : Submitted string) :
  expiration_date < purchase_date →
  let data := InventoryEntryForm.Build item quantity storage_location
                (Value purchase_date) (Value expiration_date) notes in
  (∃ errors,
     inventory_entry_create now s (POST data)
     = (render "inventory/inventory_entry_form.html" errors, s)
     ∧ ("expiration_date", expiration_before_purchase) ∈ errors)
  ∧ (∀ k, is_Some (InventoryEntry_objects s !! k) →
     ∃ errors,
       inventory_entry_update s k (POST data)
       = (render "inventory/inventory_entry_form.html" errors, s)
       ∧ ("expiration_date", expiration_before_purchase) ∈ errors)
  ∧ (reachable s →
     ∀ k e, InventoryEntry_objects s !! k = Some e →
            InventoryEntry.purchase_date e ≤ InventoryEntry.expiration_date e).
Proof.
  intros Hlt data.
  destruct (InventoryEntryForm_dates_rejected s data purchase_date expiration_date)
    as (cd & errors & Hform & Hin); [done..|].
  pose proof (elem_of_not_nil _ _ Hin) as Hne.
  split; [|split].
  - exists errors. split; [|done]. by eapply inventory_entry_create_invalid.
  - intros k Hk. exists errors. split; [|done]. by eapply inventory_entry_update_invalid.
  - intros Hs k e He. by destruct (reachable_ok s Hs k e He).
Qed.

Lemma expiration_before_purchase_rejected_witness :
  let data := InventoryEntryForm.Build (Value 1) (Value 2) (Value 1)
                (Value 738895) (Value 738886) Blank in
  (∃ errors,
     inventory_entry_create 104 milk_store (POST data)
     = (render "inventory/inventory_entry_form.html" errors, milk_store)
     ∧ ("expiration_date", expiration_before_purchase) ∈ errors)
  ∧ (∃ errors,
       inventory_entry_update milk_store 1 (POST data)
       = (render "inventory/inventory_entry_form.html" errors, milk_store)
       ∧ ("expiration_date", expiration_before_purchase) ∈ errors)
  ∧ InventoryEntry.purchase_date milk_entry ≤ InventoryEntry.expiration_date milk_entry.
Proof.
  destruct (expiration_before_purchase_rejected 104 milk_store (Value 1) (Value 2)
              (Value 1) 738895 738886 Blank) as (Hcreate & Hupdate & Hinv); [lia|].
  split; [exact Hcreate|]. split.
  - apply Hupdate. exists milk_entry. vm_compute. reflexivity.
  - apply (Hinv (reachable_run _ _ reachable_empty) 1 milk_entry).
    vm_compute. reflexivity.
Defined.

(** C10 (as the code has it). For an inventory entry whose quantity has
    reached 0, an update that submits the entry's own quantity fails with
    the validation error on [quantity] and changes nothing, whatever else
    it edits; an update that succeeds has submitted a positive quantity,
    which the entry then has. *)
Theorem depleted_entry_update (s : Store) (k : pk) (e : InventoryEntry.t)
    (item storage_location purchase_date expiration_date : Submitted Z)
    (notes : Submitted string) :
  InventoryEntry_objects s !! k = Some e →
  InventoryEntry.quantity e = 0 →
  (∃ errors,
     inventory_entry_update s k
       (POST (InventoryEntryForm.Build item (Value (InventoryEntry.quantity e))
                storage_location purchase_date expiration_date notes))
     = (render "inventory/inventory_entry_form.html" errors, s)
     ∧ ("quantity", quantity_not_positive) ∈ errors)
  ∧ (∀ data to m s',
       inventory_entry_update s k (POST data) = (redirect to m, s') →
       ∃ q e', InventoryEntryForm.quantity data = Value q
               ∧ 0 < q
               ∧ InventoryEntry_objects s' !! k = Some e'
               ∧ InventoryEntry.quantity e' = q).
Proof.
  intros He Hzero. split.
  - destruct (InventoryEntryForm_quantity_rejected s
                (InventoryEntryForm.Build item (Value (InventoryEntry.quantity e))
                   storage_location purchase_date expiration_date notes)
                (InventoryEntry.quantity e))
      as (cd & errors & Hform & Hin); [done|lia|].
    exists errors. split; [|done].
    eapply inventory_entry_update_invalid; [by eexists|done|by eapply elem_of_not_nil].
  - intros data to m s'. unfold inventory_entry_update. rewrite He.
    destruct (InventoryEntryForm.full_clean s data) as [cd errors] eqn:Hform.
    destruct errors; [|done].
    apply InventoryEntryForm_valid_inv in Hform
      as (i & q & l & p & x & n & _ & Hq & _ & _ & _ & _ & _ & _ & Hpos & _ & ->).
    simpl. intros [= _ _ <-]. eexists q, _. simpl.
    rewrite lookup_insert_eq. done.
Qed.

Lemma depleted_entry_update_witness :
  (∃ errors,
     inventory_entry_update depleted_store 1
       (POST (InventoryEntryForm.Build (Value 1) (Value 0) (Value 1)
                (Value 738886) (Value 738895) (Value "empty carton")))
     = (render "inventory/inventory_entry_form.html" errors, depleted_store)
     ∧ ("quantity", quantity_not_positive) ∈ errors)
  ∧ (∃ q e', InventoryEntryForm.quantity restock = Value q
             ∧ 0 < q
             ∧ InventoryEntry_objects (inventory_entry_update depleted_store 1 (POST restock)).2
               !! 1 = Some e'
             ∧ InventoryEntry.quantity e' = q).
Proof.
  destruct (depleted_entry_update depleted_store 1 (with_quantity milk_entry 0)
              (Value 1) (Value 1) (Value 738886) (Value 738895) (Value "empty carton"))
    as (Hfail & Hsucc).
  - vm_compute. reflexivity.
  - reflexivity.
  - split; [exact Hfail|].
    apply (Hsucc restock "inventory:inventory_list" messages_success).
    vm_compute. reflexivity.
Defined.

(** C10, as stated, does not hold: entry 1 of the depleted household has
    quantity 0, and the update that sets its quantity to 3 and its notes
    succeeds and rewrites the entry. *)
Lemma depleted_entry_update_counterexample :
  InventoryEntry.quantity <$> InventoryEntry_objects depleted_store !! 1 = Some 0
  ∧ ∃ s',
      inventory_entry_update depleted_store 1 (POST restock)
      = (redirect "inventory:inventory_list" messages_success, s')
      ∧ InventoryEntry_objects s' !! 1
        = Some (InventoryEntry.Build 1 3 1 738886 738895 (Some "restocked") 101)
      ∧ s' ≠ depleted_store.
Proof.
  split; [vm_compute; reflexivity|].
  eexists. split; [vm_compute; reflexivity|].
  split; [vm_compute; reflexivity|].
  intros Heq. apply (f_equal (λ s, InventoryEntry.quantity <$> InventoryEntry_objects s !! 1)) in Heq.
  vm_compute in Heq. discriminate Heq.
Qed.

(** ** Expiration bands *)

(** C4. With d the days until expiration: an entry is expired iff d < 0,
    expiring soon within the window iff 0 <= d <= window, and fresh iff
    d > window; the status filter of the inventory list draws the same
    three bands.  For a window that is not negative (7 by default) an
    entry is in exactly one band, and an entry that expires today has
    d = 0 and is expiring soon, neither expired nor fresh. *)
Theorem expiration_bands (today : date) (e : InventoryEntry.t) (window : Z) :
  0 ≤ window →
  let d := days_until_expiration today e in
  let expired := is_expired today e in
  let expiring := is_expiring_soon today e window in
  let fresh := status_filter window (Some "fresh") today e in
  (expired = true ↔ d < 0)
  ∧ (expiring = true ↔ 0 ≤ d ≤ window)
  ∧ (fresh = true ↔ d > window)
  ∧ status_filter window (Some "expired") today e = expired
  ∧ status_filter window (Some "expiring") today e = expiring
  ∧ ((expired = true ∧ expiring = false ∧ fresh = false)
     ∨ (expired = false ∧ expiring = true ∧ fresh = false)
     ∨ (expired = false ∧ expiring = false ∧ fresh = true))
  ∧ (InventoryEntry.expiration_date e = today →
     d = 0 ∧ expiring = true ∧ expired = false ∧ fresh = false).
Proof.
  intros Hwindow. cbv zeta.
  unfold is_expired, is_expiring_soon, status_filter, days_until_expiration. simpl.
  repeat split; intros;
    repeat match goal with
      | H : _ && _ = true |- _ => apply andb_true_iff in H as [? ?]
      | H : context [bool_decide _] |- _ => revert H
      | |- context [bool_decide ?P] => destruct (bool_decide_reflect P)
      | |- context [?a <? ?b] => destruct (Z.ltb_spec a b)
      | |- context [?a <=? ?b] => destruct (Z.leb_spec a b)
      end; simpl in *; intros; try done; try lia.
  all: try (left; split; [done|split; done]).
  all: try (right; left; split; [done|split; done]).
  all: try (right; right; split; [done|split; done]).
Qed.

Lemma expiration_bands_witness :
  days_until_expiration 738895 milk_entry = 0
  ∧ is_expiring_soon 738895 milk_entry 7 = true
  ∧ is_expired 738895 milk_entry = false
  ∧ status_filter 7 (Some "fresh") 738895 milk_entry = false.
Proof.
  destruct (expiration_bands 738895 milk_entry 7) as (_ & _ & _ & _ & _ & _ & Htoday).
  - lia.
  - apply Htoday. reflexivity.
Defined.

(** ** Total quantity and low stock *)

Lemma foldl_add_acc (l : list Z) (a : Z) : foldl Z.add a l = a + foldl Z.add 0 l.
Proof.
  revert a. induction l as [|x l IH]; intros a; simpl; [lia|].
  rewrite (IH (a + x)), (IH (0 + x)). lia.
Qed.

Lemma builtin_sum_cons (x : Z) (l : list Z) : builtin_sum (x :: l) = x + builtin_sum l.
Proof. unfold builtin_sum. simpl. rewrite foldl_add_acc. lia. Qed.

Lemma builtin_sum_Permutation (l1 l2 : list Z) :
  l1 ≡ₚ l2 → builtin_sum l1 = builtin_sum l2.
Proof.
  induction 1 as [|x l1 l2 _ IH|x y l|l1 l2 l3 _ IH1 _ IH2].
  - done.
  - by rewrite !builtin_sum_cons, IH.
  - rewrite !builtin_sum_cons. lia.
  - by rewrite IH1.
Qed.

(** The total counts every row of the item: a new row adds its quantity
    (and nothing when that quantity is 0); rows of other items add
    nothing. *)
Lemma get_total_quantity_insert (s : Store) (j : pk) (e : InventoryEntry.t) (k : pk) :
  InventoryEntry_objects s !! j = None →
  get_total_quantity
    (MkStore (StorageLocation_objects s) (Category_objects s) (Item_objects s)
       (<[j := e]> (InventoryEntry_objects s)) (UsageLog_objects s)) k
  = get_total_quantity s k
    + (if decide (InventoryEntry.item e = k) then InventoryEntry.quantity e else 0).
Proof.
  intros Hj. unfold get_total_quantity, Item_inventory_entries, rows. simpl.
  rewrite (builtin_sum_Permutation _
             ((λ r, InventoryEntry.quantity r.2)
              <$> filter (λ r, InventoryEntry.item r.2 = k)
                    ((j, e) :: map_to_list (InventoryEntry_objects s)))).
  2:{ apply fmap_Permutation, filter_Permutation. by apply map_to_list_insert. }
  rewrite filter_cons. simpl.
  destruct (decide (InventoryEntry.item e = k)).
  - rewrite fmap_cons, builtin_sum_cons. simpl. lia.
  - lia.
Qed.

(** C6. [is_low_stock] is false when the threshold is unset, and
    otherwise true iff the total quantity of the item, summed over all of
    its inventory entries whatever their quantity, is strictly below the
    threshold; a total equal to the threshold is not low stock. *)
Theorem is_low_stock_spec (s : Store) (k : pk) (item : Item.t) :
  let total :=
    builtin_sum
      ((λ r, InventoryEntry.quantity r.2)
       <$> filter (λ r, InventoryEntry.item r.2 = k)
             (map_to_list (InventoryEntry_objects s))) in
  get_total_quantity s k = total
  ∧ (Item.low_stock_threshold item = None → is_low_stock s k item = false)
  ∧ (∀ threshold, Item.low_stock_threshold item = Some threshold →
       (is_low_stock s k item = true ↔ total < threshold)
       ∧ (total = threshold → is_low_stock s k item = false))
  ∧ (∀ j e, InventoryEntry_objects s !! j = None →
       InventoryEntry.item e = k →
       get_total_quantity
         (MkStore (StorageLocation_objects s) (Category_objects s) (Item_objects s)
            (<[j := e]> (InventoryEntry_objects s)) (UsageLog_objects s)) k
       = total + InventoryEntry.quantity e).
Proof.
  cbv zeta. split; [done|]. unfold is_low_stock. split; [by intros ->|]. split.
  - intros threshold ->. unfold get_total_quantity, Item_inventory_entries, rows.
    split; [apply Z.ltb_lt|]. intros ->. apply Z.ltb_irrefl.
  - intros j e Hj He. rewrite get_total_quantity_insert by done.
    by rewrite decide_True.
Qed.

Lemma is_low_stock_spec_witness :
  get_total_quantity (run milk_store [use_milk 102 1]) 1 = 2
  ∧ is_low_stock (run milk_store [use_milk 102 1]) 1
      (Item.Build "Milk" 1 1 None "gallon" (Some 2) 100 100) = false.
Proof.
  destruct (is_low_stock_spec (run milk_store [use_milk 102 1]) 1
              (Item.Build "Milk" 1 1 None "gallon" (Some 2) 100 100))
    as (Htotal & _ & Hsome & _).
  split; [vm_compute; reflexivity|].
  destruct (Hsome 2 eq_refl) as [_ Hequal]. apply Hequal.
  rewrite <- Htotal. vm_compute. reflexivity.
Defined.

(** ** Deletion *)

(** C8. Deleting a category that an item references, or a storage
    location that an item or an inventory entry references, is refused by
    the store; the view reports the error and the store is unchanged. *)
Theorem protected_delete_rejected (s : Store) (k : pk) :
  (is_Some (Category_objects s !! k) →
   (∃ j item, Item_objects s !! j = Some item ∧ Item.category item = k) →
   Category_delete s k = inl Protected
   ∧ category_delete s k (POST ())
     = (redirect "inventory:category_list" messages_error, s))
  ∧ (is_Some (StorageLocation_objects s !! k) →
     (∃ j item, Item_objects s !! j = Some item ∧ Item.default_storage_location item = k)
     ∨ (∃ j e, InventoryEntry_objects s !! j = Some e ∧ InventoryEntry.storage_location e = k) →
     StorageLocation_delete s k = inl Protected
     ∧ location_delete s k (POST ())
       = (redirect "inventory:location_list" messages_error, s)).
Proof.
  split.
  - intros [c Hc] Href. apply referenced_by_true in Href.
    unfold category_delete, Category_delete. by rewrite Hc, Href.
  - intros [l Hl] Href.
    assert (referenced_by Item.default_storage_location (Item_objects s) k
            || referenced_by InventoryEntry.storage_location (InventoryEntry_objects s) k
            = true) as Hprot.
    { apply orb_true_iff. destruct Href as [Href|Href]; [left|right];
        by apply referenced_by_true. }
    unfold location_delete, StorageLocation_delete. by rewrite Hl, Hprot.
Qed.

Lemma protected_delete_rejected_witness :
  (Category_delete milk_store 1 = inl Protected
   ∧ category_delete milk_store 1 (POST ())
     = (redirect "inventory:category_list" messages_error, milk_store))
  ∧ (StorageLocation_delete milk_store 1 = inl Protected
     ∧ location_delete milk_store 1 (POST ())
       = (redirect "inventory:location_list" messages_error, milk_store)).
Proof.
  destruct (protected_delete_rejected milk_store 1) as (Hcategory & Hlocation).
  split.
  - apply Hcategory.
    + eexists. vm_compute. reflexivity.
    + eexists 1, _. split; vm_compute; reflexivity.
  - apply Hlocation.
    + eexists. vm_compute. reflexivity.
    + right. exists 1, milk_entry. split; vm_compute; reflexivity.
Defined.

(** C9. Deleting an item removes the item, every inventory entry of the
    item and every usage log of those entries; the inventory entries and
    usage logs of other items, the other items, the categories and the
    storage locations stay as they were. *)
Theorem item_delete_cascades (s : Store) (k : pk) :
  is_Some (Item_objects s !! k) →
  ∃ s',
    item_delete s k (POST ()) = (redirect "inventory:item_list" messages_success, s')
    ∧ Item_objects s' = delete k (Item_objects s)
    ∧ (∀ j e, InventoryEntry_objects s' !! j = Some e
              ↔ InventoryEntry_objects s !! j = Some e ∧ InventoryEntry.item e ≠ k)
    ∧ (∀ j u, UsageLog_objects s' !! j = Some u
              ↔ UsageLog_objects s !! j = Some u
                ∧ ¬ ∃ e, InventoryEntry_objects s !! UsageLog.inventory_entry u = Some e
                         ∧ InventoryEntry.item e = k)
    ∧ StorageLocation_objects s' = StorageLocation_objects s
    ∧ Category_objects s' = Category_objects s.
Proof.
  intros [item Hitem]. unfold item_delete. rewrite Hitem.
  eexists. split; [reflexivity|]. simpl. split; [done|]. split; [|split; [|done]].
  - intros j e. by rewrite map_lookup_filter_Some.
  - intros j u. rewrite map_lookup_filter_Some. simpl.
    rewrite map_lookup_filter_None. simpl. split.
    + intros [Hu Hnone]. split; [done|]. intros (e & He & Hk).
      destruct Hnone as [Hnone|Hnone]; [congruence|]. by apply (Hnone e).
    + intros [Hu Hnot]. split; [done|].
      destruct (InventoryEntry_objects s !! UsageLog.inventory_entry u) as [e|] eqn:He;
        [|by left].
      right. intros e' [= <-] Hk. apply Hnot. by exists e.
Qed.

Lemma item_delete_cascades_witness :
  ∃ s',
    item_delete depleted_store 1 (POST ())
    = (redirect "inventory:item_list" messages_success, s')
    ∧ Item_objects s' = delete 1 (Item_objects depleted_store)
    ∧ (∀ j e, InventoryEntry_objects s' !! j = Some e
              ↔ InventoryEntry_objects depleted_store !! j = Some e
                ∧ InventoryEntry.item e ≠ 1)
    ∧ (∀ j u, UsageLog_objects s' !! j = Some u
              ↔ UsageLog_objects depleted_store !! j = Some u
                ∧ ¬ ∃ e, InventoryEntry_objects depleted_store
                           !! UsageLog.inventory_entry u = Some e
                         ∧ InventoryEntry.item e = 1)
    ∧ StorageLocation_objects s' = StorageLocation_objects depleted_store
    ∧ Category_objects s' = Category_objects depleted_store.
Proof.
  apply (item_delete_cascades depleted_store 1).
  eexists. vm_compute. reflexivity.
Defined.

(** ** Expiration bands in the read views *)

Lemma length_filter_rows {A} (P : Z * A → Prop) `{∀ r, Decision (P r)} (tbl : gmap Z A) :
  length (filter P (rows tbl)) = size (filter P tbl).
Proof.
  rewrite <- length_map_to_list. apply Permutation_length, NoDup_Permutation.
  - apply NoDup_filter, NoDup_map_to_list.
  - apply NoDup_map_to_list.
  - intros [k x]. unfold rows.
    rewrite list_elem_of_filter, !elem_of_map_to_list, map_lookup_filter_Some.
    tauto.
Qed.

Lemma elem_of_order_by_expiration_date (l : list (Z * InventoryEntry.t)) r :
  r ∈ order_by_expiration_date l ↔ r ∈ l.
Proof. unfold order_by_expiration_date. by rewrite merge_sort_Permutation. Qed.

(** C5 (as the code has it). On the dashboard the expiring-soon list and
    the expired count take only entries with quantity > 0.  The inventory
    list selects its three bands by expiration date alone: an entry is
    listed in a band iff its date falls in it, whatever its quantity. *)
Theorem band_views_quantity (today : date) (s : Store) :
  (∀ r, r ∈ dashboard_context.expiring_soon (dashboard today s) →
        InventoryEntry_objects s !! r.1 = Some r.2
        ∧ 0 < InventoryEntry.quantity r.2
        ∧ today ≤ InventoryEntry.expiration_date r.2 ≤ today + 7)
  ∧ dashboard_context.expired_count (dashboard today s)
    = size (filter (λ r, InventoryEntry.expiration_date r.2 < today
                         ∧ 0 < InventoryEntry.quantity r.2)
              (InventoryEntry_objects s))
  ∧ (∀ status k e,
       (k, e) ∈ inventory_list today s
                  (inventory_list_GET.Build None None None (Some status))
       ↔ InventoryEntry_objects s !! k = Some e
         ∧ status_filter 7 (Some status) today e = true)
  ∧ (∀ status e quantity,
       status_filter 7 status today (with_quantity e quantity)
       = status_filter 7 status today e).
Proof.
  split; [|split; [|split]].
  - intros [k e] Hin. simpl in Hin. apply subseteq_take in Hin.
    apply elem_of_order_by_expiration_date, list_elem_of_filter in Hin
      as [(Hge & Hle & Hpos) Hin].
    apply elem_of_map_to_list in Hin. simpl in *. done.
  - simpl. apply length_filter_rows.
  - intros status k e. unfold inventory_list. simpl.
    rewrite !list_elem_of_filter, elem_of_order_by_expiration_date. simpl.
    unfold rows. rewrite elem_of_map_to_list. tauto.
  - done.
Qed.

Lemma band_views_quantity_witness :
  InventoryEntry_objects milk_store !! 1 = Some milk_entry
  ∧ 0 < InventoryEntry.quantity milk_entry
  ∧ 738890 ≤ InventoryEntry.expiration_date milk_entry ≤ 738890 + 7.
Proof.
  destruct (band_views_quantity 738890 milk_store) as (Hdashboard & _).
  apply (Hdashboard (1, milk_entry)).
  vm_compute. apply list_elem_of_here.
Defined.

(** C5, as stated, does not hold for the inventory list: entry 1 of the
    depleted household has quantity 0 and is listed as fresh on
    2023-12-26, as expiring on 2024-01-05 and as expired on 2024-01-15. *)
Lemma inventory_list_depleted_counterexample :
  InventoryEntry_objects depleted_store !! 1 = Some (with_quantity milk_entry 0)
  ∧ InventoryEntry.quantity (with_quantity milk_entry 0) = 0
  ∧ inventory_list 738880 depleted_store
      (inventory_list_GET.Build None None None (Some "fresh"))
    = [(1, with_quantity milk_entry 0)]
  ∧ inventory_list 738890 depleted_store
      (inventory_list_GET.Build None None None (Some "expiring"))
    = [(1, with_quantity milk_entry 0)]
  ∧ inventory_list 738900 depleted_store
      (inventory_list_GET.Build None None None (Some "expired"))
    = [(1, with_quantity milk_entry 0)].
Proof. repeat split; vm_compute; reflexivity. Qed.

(** ** The write views never fail *)

Lemma simple_form_valid {A} (s : Store) (name_r : ErrorCode + string)
    (description_r : ErrorCode + option string) (build : string → option string → A)
    (o : option A) :
  (match cleaned name_r, cleaned description_r with
   | Some n, Some d => Some (build n d)
   | _, _ => None
   end,
   field_errors "name" name_r ++ field_errors "description" description_r)
  = (o, []) →
  is_Some o.
Proof.
  intros [= <- [(n & ->)%field_errors_nil (d & ->)%field_errors_nil]%app_nil].
  by eexists.
Qed.

Lemma ItemForm_valid (s : Store) (data : ItemForm.POST)
    (o : option (datetime → datetime → Item.t)) :
  ItemForm.full_clean s data = (o, []) → is_Some o.
Proof.
  unfold ItemForm.full_clean. intros [= <- Herr].
  apply app_nil in Herr as [(n & ->)%field_errors_nil Herr].
  apply app_nil in Herr as [(c & ->)%field_errors_nil Herr].
  apply app_nil in Herr as [(l & ->)%field_errors_nil Herr].
  apply app_nil in Herr as [(st & ->)%field_errors_nil Herr].
  apply app_nil in Herr as [(u & ->)%field_errors_nil (t & ->)%field_errors_nil].
  by eexists.
Qed.

Lemma write_views_never_fail (s : Store) (req : Request) : (handle s req).1 ≠ Http500.
Proof.
  destruct req as [page|now r|k r|k r|now r|now k r|k r|r|k r|k r|r|k r|k r|now r]; simpl.
  - by destruct page.
  - destruct r as [|data]; [done|]. unfold inventory_entry_create.
    destruct (InventoryEntryForm.full_clean s data) as [cd errors] eqn:Hform.
    destruct errors; [|done].
    by destruct (InventoryEntryForm_valid_instance _ _ _ now Hform) as (e & -> & _).
  - unfold inventory_entry_update.
    destruct (InventoryEntry_objects s !! k) as [old|]; [|done].
    destruct r as [|data]; [done|].
    destruct (InventoryEntryForm.full_clean s data) as [cd errors] eqn:Hform.
    destruct errors; [|done].
    by destruct (InventoryEntryForm_valid_instance _ _ _
                   (InventoryEntry.date_added old) Hform) as (e & -> & _).
  - unfold inventory_entry_delete. by repeat case_match.
  - destruct r as [|data]; [done|]. unfold item_create.
    destruct (ItemForm.full_clean s data) as [o errors] eqn:Hform.
    destruct errors; [|by destruct o].
    by destruct (ItemForm_valid _ _ _ Hform) as [item ->].
  - unfold item_update. destruct (Item_objects s !! k); [|done].
    destruct r as [|data]; [done|].
    destruct (ItemForm.full_clean s data) as [o errors] eqn:Hform.
    destruct errors; [|by destruct o].
    by destruct (ItemForm_valid _ _ _ Hform) as [item ->].
  - unfold item_delete. by repeat case_match.
  - destruct r as [|data]; [done|]. unfold location_create.
    destruct (StorageLocationForm.full_clean s None data) as [o errors] eqn:Hform.
    destruct errors; [|by destruct o].
    by destruct (simple_form_valid s _ _ _ _ Hform) as [l ->].
  - unfold location_update. destruct (StorageLocation_objects s !! k); [|done].
    destruct r as [|data]; [done|].
    destruct (StorageLocationForm.full_clean s (Some k) data) as [o errors] eqn:Hform.
    destruct errors; [|by destruct o].
    by destruct (simple_form_valid s _ _ _ _ Hform) as [l ->].
  - unfold location_delete. by repeat case_match.
  - destruct r as [|data]; [done|]. unfold category_create.
    destruct (CategoryForm.full_clean s None data) as [o errors] eqn:Hform.
    destruct errors; [|by destruct o].
    by destruct (simple_form_valid s _ _ _ _ Hform) as [c ->].
  - unfold category_update. destruct (Category_objects s !! k); [|done].
    destruct r as [|data]; [done|].
    destruct (CategoryForm.full_clean s (Some k) data) as [o errors] eqn:Hform.
    destruct errors; [|by destruct o].
    by destruct (simple_form_valid s _ _ _ _ Hform) as [c ->].
  - unfold category_delete. by repeat case_match.
  - destruct r as [|data]; [done|]. unfold usage_log_create.
    destruct (UsageLogForm.full_clean s data) as [cd errors] eqn:Hform.
    destruct errors; [|done].
    by apply UsageLogForm_valid_inv in Hform
      as (k & e & q & d & n & _ & _ & _ & _ & _ & _ & _ & ->).
Qed.

(** ** What each write view does to the store *)

Lemma ItemForm_valid_inv (s : Store) (data : ItemForm.POST)
    (o : option (datetime → datetime → Item.t)) :
  ItemForm.full_clean s data = (o, []) →
  ∃ n c l st u t,
    o = Some (Item.Build n c l st u t)
    ∧ ItemForm.name data = Value n
    ∧ ItemForm.category data = Value c
    ∧ ItemForm.default_storage_location data = Value l
    ∧ optional_field (ItemForm.low_stock_threshold data) = inr t
    ∧ is_Some (Category_objects s !! c)
    ∧ is_Some (StorageLocation_objects s !! l)
    ∧ (∀ x, t = Some x → 0 < x).
Proof.
  unfold ItemForm.full_clean. intros [= <- Herr].
  apply app_nil in Herr as [(n & Hn)%field_errors_nil Herr].
  apply app_nil in Herr as [(c & Hc)%field_errors_nil Herr].
  apply app_nil in Herr as [(l & Hl)%field_errors_nil Herr].
  apply app_nil in Herr as [(st & Hst)%field_errors_nil Herr].
  apply app_nil in Herr as [(u & Hu)%field_errors_nil (t & Ht)%field_errors_nil].
  rewrite Hn, Hc, Hl, Hst, Hu, Ht. simpl.
  apply required_field_inr in Hn.
  apply model_choice_field_inr in Hc as [Hc Hcrow].
  apply model_choice_field_inr in Hl as [Hl Hlrow].
  apply and_then_inr in Ht as (t' & Ht & Hhook).
  exists n, c.1, l.1, st, u, t. repeat split; eauto.
  - unfold ItemForm.clean_low_stock_threshold in Hhook.
    destruct t' as [x|]; [case_bool_decide|]; by simplify_eq.
  - intros x ->. unfold ItemForm.clean_low_stock_threshold in Hhook.
    destruct t' as [y|]; [|done]. case_bool_decide; simplify_eq. lia.
Qed.

Lemma name_taken_false {A} (get_name : A → string) (tbl : gmap Z A)
    (instance : option Z) (n : string) :
  name_taken get_name tbl instance n = false →
  ∀ j r, tbl !! j = Some r → Some j ≠ instance → get_name r ≠ n.
Proof.
  unfold name_taken. rewrite bool_decide_eq_false, Exists_exists.
  intros Hno j r Hj Hne Hn. apply Hno. exists (j, r). split; [|done].
  by apply elem_of_map_to_list.
Qed.

Lemma name_taken_true {A} (get_name : A → string) (tbl : gmap Z A)
    (instance : option Z) (j : Z) (r : A) :
  tbl !! j = Some r → Some j ≠ instance →
  name_taken get_name tbl instance (get_name r) = true.
Proof.
  intros Hj Hne. unfold name_taken. rewrite bool_decide_eq_true, Exists_exists.
  exists (j, r). split; [|done]. by apply elem_of_map_to_list.
Qed.

Lemma simple_form_valid_inv {A} (get_name : A → string) (tbl : gmap Z A)
    (instance : option Z) (name description : Submitted string)
    (build : string → option string → A) (o : option A) :
  (match cleaned (and_then (required_field name) (unique_name get_name tbl instance)),
         cleaned (optional_field description) with
   | Some n, Some d => Some (build n d)
   | _, _ => None
   end,
   field_errors "name" (and_then (required_field name) (unique_name get_name tbl instance))
   ++ field_errors "description" (optional_field description))
  = (o, []) →
  ∃ n d, o = Some (build n d) ∧ name = Value n
         ∧ name_taken get_name tbl instance n = false.
Proof.
  intros [= <- [(n & Hn)%field_errors_nil (d & Hd)%field_errors_nil]%app_nil].
  rewrite Hn, Hd. simpl. apply and_then_inr in Hn as (n' & Hn & Hu).
  apply required_field_inr in Hn. unfold unique_name in Hu.
  destruct (name_taken get_name tbl instance n') eqn:Htaken; simplify_eq.
  by exists n, d.
Qed.

Lemma inventory_entry_create_effect now s r :
  (inventory_entry_create now s r).2 = s
  ∨ ∃ e, (inventory_entry_create now s r).2
         = MkStore (StorageLocation_objects s) (Category_objects s) (Item_objects s)
             (save_new (InventoryEntry_objects s) e) (UsageLog_objects s)
         ∧ is_Some (Item_objects s !! InventoryEntry.item e)
         ∧ is_Some (StorageLocation_objects s !! InventoryEntry.storage_location e).
Proof.
  unfold inventory_entry_create. destruct r as [|data]; [by left|].
  destruct (InventoryEntryForm.full_clean s data) as [cd errors] eqn:Hform.
  destruct errors; [|by left].
  apply InventoryEntryForm_valid_inv in Hform
    as (i & q & l & p & x & n & _ & _ & _ & _ & _ & _ & Hi & Hl & _ & _ & ->).
  right. eexists. simpl. split; [reflexivity|]. done.
Qed.

Lemma inventory_entry_update_effect s k r :
  (inventory_entry_update s k r).2 = s
  ∨ ∃ e, is_Some (InventoryEntry_objects s !! k)
         ∧ (inventory_entry_update s k r).2
           = MkStore (StorageLocation_objects s) (Category_objects s) (Item_objects s)
               (<[k := e]> (InventoryEntry_objects s)) (UsageLog_objects s)
         ∧ is_Some (Item_objects s !! InventoryEntry.item e)
         ∧ is_Some (StorageLocation_objects s !! InventoryEntry.storage_location e).
Proof.
  unfold inventory_entry_update.
  destruct (InventoryEntry_objects s !! k) as [old|] eqn:Hold; [|by left].
  destruct r as [|data]; [by left|].
  destruct (InventoryEntryForm.full_clean s data) as [cd errors] eqn:Hform.
  destruct errors; [|by left].
  apply InventoryEntryForm_valid_inv in Hform
    as (i & q & l & p & x & n & _ & _ & _ & _ & _ & _ & Hi & Hl & _ & _ & ->).
  right. eexists. simpl. split; [by eexists|]. split; [reflexivity|]. done.
Qed.

Lemma item_create_effect now s r :
  (item_create now s r).2 = s
  ∨ ∃ i, (item_create now s r).2
         = MkStore (StorageLocation_objects s) (Category_objects s)
             (save_new (Item_objects s) i) (InventoryEntry_objects s) (UsageLog_objects s)
         ∧ is_Some (Category_objects s !! Item.category i)
         ∧ is_Some (StorageLocation_objects s !! Item.default_storage_location i)
         ∧ (∀ x, Item.low_stock_threshold i = Some x → 0 < x)
         ∧ Item.created_at i = now ∧ Item.updated_at i = now.
Proof.
  unfold item_create. destruct r as [|data]; [by left|].
  destruct (ItemForm.full_clean s data) as [o errors] eqn:Hform.
  destruct errors; [|destruct o; by left].
  apply ItemForm_valid_inv in Hform
    as (n & c & l & st & u & t & -> & _ & _ & _ & _ & Hc & Hl & Ht).
  right. eexists. simpl. split; [reflexivity|]. done.
Qed.

Lemma item_update_effect now s k r :
  (item_update now s k r).2 = s
  ∨ ∃ old i, Item_objects s !! k = Some old
         ∧ (item_update now s k r).2
           = MkStore (StorageLocation_objects s) (Category_objects s)
               (<[k := i]> (Item_objects s)) (InventoryEntry_objects s)
               (UsageLog_objects s)
         ∧ is_Some (Category_objects s !! Item.category i)
         ∧ is_Some (StorageLocation_objects s !! Item.default_storage_location i)
         ∧ (∀ x, Item.low_stock_threshold i = Some x → 0 < x)
         ∧ Item.created_at i = Item.created_at old ∧ Item.updated_at i = now.
Proof.
  unfold item_update. destruct (Item_objects s !! k) as [old|] eqn:Hold; [|by left].
  destruct r as [|data]; [by left|].
  destruct (ItemForm.full_clean s data) as [o errors] eqn:Hform.
  destruct errors; [|destruct o; by left].
  apply ItemForm_valid_inv in Hform
    as (n & c & l & st & u & t & -> & _ & _ & _ & _ & Hc & Hl & Ht).
  right. eexists old, _. simpl. split; [done|]. split; [reflexivity|]. done.
Qed.

Lemma location_create_effect s r :
  (location_create s r).2 = s
  ∨ ∃ l, (location_create s r).2
         = MkStore (save_new (StorageLocation_objects s) l) (Category_objects s)
             (Item_objects s) (InventoryEntry_objects s) (UsageLog_objects s)
         ∧ ∀ j x, StorageLocation_objects s !! j = Some x →
                  StorageLocation.name x ≠ StorageLocation.name l.
Proof.
  unfold location_create. destruct r as [|data]; [by left|].
  destruct (StorageLocationForm.full_clean s None data) as [o errors] eqn:Hform.
  destruct errors; [|destruct o; by left].
  apply simple_form_valid_inv in Hform as (n & d & -> & _ & Htaken).
  right. eexists. split; [reflexivity|]. simpl. intros j x Hj.
  by eapply name_taken_false.
Qed.

Lemma location_update_effect s k r :
  (location_update s k r).2 = s
  ∨ ∃ l, is_Some (StorageLocation_objects s !! k)
         ∧ (location_update s k r).2
           = MkStore (<[k := l]> (StorageLocation_objects s)) (Category_objects s)
               (Item_objects s) (InventoryEntry_objects s) (UsageLog_objects s)
         ∧ ∀ j x, StorageLocation_objects s !! j = Some x → j ≠ k →
                  StorageLocation.name x ≠ StorageLocation.name l.
Proof.
  unfold location_update.
  destruct (StorageLocation_objects s !! k) as [old|] eqn:Hold; [|by left].
  destruct r as [|data]; [by left|].
  destruct (StorageLocationForm.full_clean s (Some k) data) as [o errors] eqn:Hform.
  destruct errors; [|destruct o; by left].
  apply simple_form_valid_inv in Hform as (n & d & -> & _ & Htaken).
  right. eexists. split; [by eexists|]. split; [reflexivity|]. simpl.
  intros j x Hj Hne. eapply name_taken_false; [done..|]. congruence.
Qed.

Lemma category_create_effect s r :
  (category_create s r).2 = s
  ∨ ∃ c, (category_create s r).2
         = MkStore (StorageLocation_objects s) (save_new (Category_objects s) c)
             (Item_objects s) (InventoryEntry_objects s) (UsageLog_objects s)
         ∧ ∀ j x, Category_objects s !! j = Some x → Category.name x ≠ Category.name c.
Proof.
  unfold category_create. destruct r as [|data]; [by left|].
  destruct (CategoryForm.full_clean s None data) as [o errors] eqn:Hform.
  destruct errors; [|destruct o; by left].
  apply simple_form_valid_inv in Hform as (n & d & -> & _ & Htaken).
  right. eexists. split; [reflexivity|]. simpl. intros j x Hj.
  by eapply name_taken_false.
Qed.

Lemma category_update_effect s k r :
  (category_update s k r).2 = s
  ∨ ∃ c, is_Some (Category_objects s !! k)
         ∧ (category_update s k r).2
           = MkStore (StorageLocation_objects s) (<[k := c]> (Category_objects s))
               (Item_objects s) (InventoryEntry_objects s) (UsageLog_objects s)
         ∧ ∀ j x, Category_objects s !! j = Some x → j ≠ k →
                  Category.name x ≠ Category.name c.
Proof.
  unfold category_update.
  destruct (Category_objects s !! k) as [old|] eqn:Hold; [|by left].
  destruct r as [|data]; [by left|].
  destruct (CategoryForm.full_clean s (Some k) data) as [o errors] eqn:Hform.
  destruct errors; [|destruct o; by left].
  apply simple_form_valid_inv in Hform as (n & d & -> & _ & Htaken).
  right. eexists. split; [by eexists|]. split; [reflexivity|]. simpl.
  intros j x Hj Hne. eapply name_taken_false; [done..|]. congruence.
Qed.

Lemma referenced_by_false {A} (fk : A → pk) (tbl : gmap Z A) (k : pk) :
  referenced_by fk tbl k = false ↔ ∀ j row, tbl !! j = Some row → fk row ≠ k.
Proof.
  rewrite <- not_true_iff_false, referenced_by_true. split.
  - intros Hno j row Hj Hfk. apply Hno. by exists j, row.
  - intros Hall (j & row & Hj & Hfk). by apply (Hall j row).
Qed.

Lemma location_delete_effect s k r :
  (location_delete s k r).2 = s
  ∨ ((location_delete s k r).2
     = MkStore (delete k (StorageLocation_objects s)) (Category_objects s)
         (Item_objects s) (InventoryEntry_objects s) (UsageLog_objects s)
     ∧ (∀ j i, Item_objects s !! j = Some i → Item.default_storage_location i ≠ k)
     ∧ (∀ j e, InventoryEntry_objects s !! j = Some e →
               InventoryEntry.storage_location e ≠ k)).
Proof.
  unfold location_delete, StorageLocation_delete.
  destruct (StorageLocation_objects s !! k); [|by left]. destruct r; [by left|].
  destruct (referenced_by Item.default_storage_location _ k) eqn:H1; [by left|].
  destruct (referenced_by InventoryEntry.storage_location _ k) eqn:H2; [by left|].
  right. simpl. split; [done|]. split; by apply referenced_by_false.
Qed.

Lemma category_delete_effect s k r :
  (category_delete s k r).2 = s
  ∨ ((category_delete s k r).2
     = MkStore (StorageLocation_objects s) (delete k (Category_objects s))
         (Item_objects s) (InventoryEntry_objects s) (UsageLog_objects s)
     ∧ (∀ j i, Item_objects s !! j = Some i → Item.category i ≠ k)).
Proof.
  unfold category_delete, Category_delete.
  destruct (Category_objects s !! k); [|by left]. destruct r; [by left|].
  destruct (referenced_by Item.category _ k) eqn:H1; [by left|].
  right. simpl. split; [done|]. by apply referenced_by_false.
Qed.

Lemma usage_log_create_effect now s r :
  (usage_log_create now s r).2 = s
  ∨ ∃ k e q d n,
      InventoryEntry_objects s !! k = Some e
      ∧ 0 < q ∧ q ≤ InventoryEntry.quantity e
      ∧ (usage_log_create now s r).2
        = MkStore (StorageLocation_objects s) (Category_objects s) (Item_objects s)
            (<[k := with_quantity e (InventoryEntry.quantity e - q)]>
               (InventoryEntry_objects s))
            (save_new (UsageLog_objects s) (UsageLog.Build k q d n now)).
Proof.
  destruct r as [|data]; [by left|].
  destruct (usage_log_create now s (POST data)) as [resp s'] eqn:Hrun.
  destruct resp as [t errs|to m| |].
  - left. revert Hrun. unfold usage_log_create. repeat case_match; intros; by simplify_eq.
  - apply usage_log_create_success_inv in Hrun
      as (k & e & q & d & n & _ & _ & He & Hq & Hle & ->).
    right. by exists k, e, q, d, n.
  - left. revert Hrun. unfold usage_log_create. repeat case_match; intros; by simplify_eq.
  - left. revert Hrun. unfold usage_log_create. repeat case_match; intros; by simplify_eq.
Qed.

Lemma delete_views_effect s k r :
  ((inventory_entry_delete s k r).2 = s
   ∨ (inventory_entry_delete s k r).2 = InventoryEntry_delete s k)
  ∧ ((item_delete s k r).2 = s ∨ (item_delete s k r).2 = Item_delete s k).
Proof.
  unfold inventory_entry_delete, item_delete. split.
  - destruct (InventoryEntry_objects s !! k); [|by left]. destruct r; [by left|by right].
  - destruct (Item_objects s !! k); [|by left]. destruct r; [by left|by right].
Qed.

(** ** Referential integrity *)

Lemma is_Some_save_new {A} (tbl : gmap Z A) (row : A) (k : Z) :
  is_Some (tbl !! k) → is_Some (save_new tbl row !! k).
Proof. intros [x Hx]. exists x. by apply lookup_save_new. Qed.

Lemma is_Some_insert {A} (tbl : gmap Z A) (row : A) (j k : Z) :
  is_Some (tbl !! k) → is_Some (<[j := row]> tbl !! k).
Proof. intros Hk. apply lookup_insert_is_Some'. by right. Qed.

Lemma lookup_save_new_Some {A} (tbl : gmap Z A) (row : A) (j : Z) (y : A) :
  save_new tbl row !! j = Some y
  ↔ (next_pk tbl = j ∧ row = y) ∨ (next_pk tbl ≠ j ∧ tbl !! j = Some y).
Proof. unfold save_new. apply lookup_insert_Some. Qed.

Lemma handle_references (s : Store) (req : Request) :
  references_resolve s → references_resolve (handle s req).2.
Proof.
  intros (Hi & He & Hu).
  destruct req as [[t|]|now r|k r|k r|now r|now k r|k r|r|k r|k r|r|k r|k r|now r];
    simpl; try done.
  - destruct (inventory_entry_create_effect now s r) as [->|(e & -> & Hei & Hel)];
      [done|].
    split; [done|]. simpl. split.
    + intros j e' [[_ <-]|[_ Hj]]%lookup_save_new_Some; [done|]. by apply (He j).
    + intros j u Hj. apply is_Some_save_new. by apply (Hu j).
  - destruct (inventory_entry_update_effect s k r) as [->|(e & _ & -> & Hei & Hel)];
      [done|].
    split; [done|]. simpl. split.
    + intros j e' [[_ <-]|[_ Hj]]%lookup_insert_Some; [done|]. by apply (He j).
    + intros j u Hj. apply is_Some_insert. by apply (Hu j).
  - destruct (delete_views_effect s k r) as [[->| ->] _]; [done|].
    split; [done|]. simpl. split.
    + intros j e [_ Hj]%lookup_delete_Some. by apply (He j).
    + intros j u [Hj Hne]%map_lookup_filter_Some. simpl in Hne.
      rewrite lookup_delete_ne by done. by apply (Hu j).
  - destruct (item_create_effect now s r) as [->|(i & -> & Hc & Hl & _)]; [done|].
    unfold references_resolve. simpl. split; [|split; [|done]].
    + intros j i' [[_ <-]|[_ Hj]]%lookup_save_new_Some; [done|]. by apply (Hi j).
    + intros j e Hj. destruct (He j e Hj) as [Hitem Hloc].
      split; [|done]. by apply is_Some_save_new.
  - destruct (item_update_effect now s k r) as [->|(old & i & _ & -> & Hc & Hl & _)];
      [done|].
    unfold references_resolve. simpl. split; [|split; [|done]].
    + intros j i' [[_ <-]|[_ Hj]]%lookup_insert_Some; [done|]. by apply (Hi j).
    + intros j e Hj. destruct (He j e Hj) as [Hitem Hloc].
      split; [|done]. by apply is_Some_insert.
  - destruct (delete_views_effect s k r) as [_ [->| ->]]; [done|].
    unfold references_resolve. simpl. split; [|split].
    + intros j i [_ Hj]%lookup_delete_Some. by apply (Hi j).
    + intros j e [Hj Hne]%map_lookup_filter_Some. simpl in Hne.
      destruct (He j e Hj) as [Hitem Hloc]. split; [|done].
      by rewrite lookup_delete_ne.
    + intros j u [Hj Hnone]%map_lookup_filter_Some. simpl in Hnone.
      destruct (Hu j u Hj) as [e Hentry]. exists e.
      apply map_lookup_filter_Some. split; [done|]. simpl. intros Hk.
      apply map_lookup_filter_None in Hnone as [Hnone|Hnone]; [congruence|].
      by apply (Hnone e).
  - destruct (location_create_effect s r) as [->|(l & -> & _)]; [done|].
    unfold references_resolve. simpl. split; [|split; [|done]].
    + intros j i Hj. destruct (Hi j i Hj). split; [done|]. by apply is_Some_save_new.
    + intros j e Hj. destruct (He j e Hj). split; [done|]. by apply is_Some_save_new.
  - destruct (location_update_effect s k r) as [->|(l & _ & -> & _)]; [done|].
    unfold references_resolve. simpl. split; [|split; [|done]].
    + intros j i Hj. destruct (Hi j i Hj). split; [done|]. by apply is_Some_insert.
    + intros j e Hj. destruct (He j e Hj). split; [done|]. by apply is_Some_insert.
  - destruct (location_delete_effect s k r) as [->|(-> & Hni & Hne)]; [done|].
    unfold references_resolve. simpl. split; [|split; [|done]].
    + intros j i Hj. destruct (Hi j i Hj). split; [done|].
      rewrite lookup_delete_ne; [done|]. intros Heq. apply (Hni j i Hj). congruence.
    + intros j e Hj. destruct (He j e Hj). split; [done|].
      rewrite lookup_delete_ne; [done|]. intros Heq. apply (Hne j e Hj). congruence.
  - destruct (category_create_effect s r) as [->|(c & -> & _)]; [done|].
    unfold references_resolve. simpl. split; [|done].
    intros j i Hj. destruct (Hi j i Hj). split; [|done]. by apply is_Some_save_new.
  - destruct (category_update_effect s k r) as [->|(c & _ & -> & _)]; [done|].
    unfold references_resolve. simpl. split; [|done].
    intros j i Hj. destruct (Hi j i Hj). split; [|done]. by apply is_Some_insert.
  - destruct (category_delete_effect s k r) as [->|(-> & Hni)]; [done|].
    unfold references_resolve. simpl. split; [|done].
    intros j i Hj. destruct (Hi j i Hj). split; [|done].
    rewrite lookup_delete_ne; [done|]. intros Heq. apply (Hni j i Hj). congruence.
  - destruct (usage_log_create_effect now s r)
      as [->|(k & e & q & d & n & Hk & _ & _ & ->)]; [done|].
    split; [done|]. simpl. split.
    + intros j e' [[_ <-]|[_ Hj]]%lookup_insert_Some; [|by apply (He j)].
      simpl. by apply (He k).
    + intros j u [[_ <-]|[_ Hj]]%lookup_save_new_Some; simpl.
      * apply is_Some_insert. by eexists.
      * apply is_Some_insert. by apply (Hu j).
Qed.

Lemma referential_integrity_of_reachable (s : Store) :
  reachable s → references_resolve s.
Proof.
  induction 1 as [|s req _ IH].
  - unfold references_resolve. simpl.
    split; [|split]; intros k x Hk; by rewrite lookup_empty in Hk.
  - by apply handle_references.
Qed.

(** X1. In every store the application can reach, every foreign key
    resolves: an item's category and default storage location, an
    inventory entry's item and storage location, and a usage log's
    inventory entry are stored rows. *)
Theorem referential_integrity (s : Store) : reachable s → references_resolve s.
Proof. apply referential_integrity_of_reachable. Qed.

Lemma referential_integrity_witness : references_resolve depleted_store.
Proof.
  apply referential_integrity.
  unfold depleted_store, milk_store. do 2 apply reachable_run. constructor.
Defined.

(** ** Low-stock thresholds *)

Lemma item_create_invalid now s data o errors :
  ItemForm.full_clean s data = (o, errors) →
  errors ≠ [] →
  item_create now s (POST data) = (render "inventory/item_form.html" errors, s).
Proof.
  intros Hform Hne. unfold item_create. rewrite Hform. by destruct o, errors.
Qed.

Lemma item_update_invalid now s k data o errors :
  is_Some (Item_objects s !! k) →
  ItemForm.full_clean s data = (o, errors) →
  errors ≠ [] →
  item_update now s k (POST data) = (render "inventory/item_form.html" errors, s).
Proof.
  intros [old Hold] Hform Hne. unfold item_update. rewrite Hold, Hform.
  by destruct o, errors.
Qed.

Lemma handle_thresholds (s : Store) (req : Request) :
  thresholds_positive s → thresholds_positive (handle s req).2.
Proof.
  unfold thresholds_positive. intros Hok.
  destruct req as [[t|]|now r|k r|k r|now r|now k r|k r|r|k r|k r|r|k r|k r|now r];
    simpl; try done.
  - by destruct (inventory_entry_create_effect now s r) as [->|(e & -> & _)].
  - by destruct (inventory_entry_update_effect s k r) as [->|(e & _ & -> & _)].
  - by destruct (delete_views_effect s k r) as [[->| ->] _].
  - destruct (item_create_effect now s r) as [->|(i & -> & _ & _ & Ht & _)]; [done|].
    simpl. intros j i' x [[_ <-]|[_ Hj]]%lookup_save_new_Some; [apply Ht|by apply (Hok j)].
  - destruct (item_update_effect now s k r)
      as [->|(old & i & _ & -> & _ & _ & Ht & _)]; [done|].
    simpl. intros j i' x [[_ <-]|[_ Hj]]%lookup_insert_Some; [apply Ht|by apply (Hok j)].
  - destruct (delete_views_effect s k r) as [_ [->| ->]]; [done|].
    simpl. intros j i x [_ Hj]%lookup_delete_Some. by apply (Hok j).
  - by destruct (location_create_effect s r) as [->|(l & -> & _)].
  - by destruct (location_update_effect s k r) as [->|(l & _ & -> & _)].
  - by destruct (location_delete_effect s k r) as [->|(-> & _)].
  - by destruct (category_create_effect s r) as [->|(c & -> & _)].
  - by destruct (category_update_effect s k r) as [->|(c & _ & -> & _)].
  - by destruct (category_delete_effect s k r) as [->|(-> & _)].
  - by destruct (usage_log_create_effect now s r)
      as [->|(k & e & q & d & n & _ & _ & _ & ->)].
Qed.

Lemma reachable_thresholds (s : Store) : reachable s → thresholds_positive s.
Proof.
  induction 1 as [|s req _ IH].
  - intros k i t Hk. simpl in Hk. by rewrite lookup_empty in Hk.
  - by apply handle_thresholds.
Qed.

(** X2. Creating or updating an item with a threshold that is not
    positive fails with the validation error on [low_stock_threshold] and
    leaves the store as it was; in every reachable store each threshold
    that is set is positive. *)
Theorem low_stock_threshold_positive (now : datetime) (s : Store)
    (name : Submitted string) (category default_storage_location : Submitted Z)
    (preferred_store typical_quantity_unit : Submitted string) (threshold : Z) :
  threshold ≤ 0 →
  let data := ItemForm.Build name category default_storage_location preferred_store
                typical_quantity_unit (Value threshold) in
  (∃ errors,
     item_create now s (POST data) = (render "inventory/item_form.html" errors, s)
     ∧ ("low_stock_threshold", threshold_not_positive) ∈ errors)
  ∧ (∀ k, is_Some (Item_objects s !! k) →
     ∃ errors,
       item_update now s k (POST data) = (render "inventory/item_form.html" errors, s)
       ∧ ("low_stock_threshold", threshold_not_positive) ∈ errors)
  ∧ (reachable s → thresholds_positive s).
Proof.
  intros Hle data.
  assert (∃ o errors, ItemForm.full_clean s data = (o, errors)
                      ∧ ("low_stock_threshold", threshold_not_positive) ∈ errors)
    as (o & errors & Hform & Hin).
  { unfold ItemForm.full_clean. simpl. unfold ItemForm.clean_low_stock_threshold.
    rewrite bool_decide_true by lia. eexists _, _. split; [reflexivity|].
    rewrite !elem_of_app. do 5 right. apply list_elem_of_here. }
  pose proof (elem_of_not_nil _ _ Hin) as Hne.
  split; [|split].
  - exists errors. split; [|done]. by eapply item_create_invalid.
  - intros k Hk. exists errors. split; [|done]. by eapply item_update_invalid.
  - apply reachable_thresholds.
Qed.

Lemma low_stock_threshold_positive_witness :
  let data := ItemForm.Build (Value "Eggs") (Value 1) (Value 1) Blank (Value "dozen")
                (Value 0) in
  (∃ errors,
     item_create 105 milk_store (POST data)
     = (render "inventory/item_form.html" errors, milk_store)
     ∧ ("low_stock_threshold", threshold_not_positive) ∈ errors)
  ∧ (∃ errors,
       item_update 105 milk_store 1 (POST data)
       = (render "inventory/item_form.html" errors, milk_store)
       ∧ ("low_stock_threshold", threshold_not_positive) ∈ errors)
  ∧ thresholds_positive milk_store.
Proof.
  destruct (low_stock_threshold_positive 105 milk_store (Value "Eggs") (Value 1) (Value 1)
              Blank (Value "dozen") 0) as (Hcreate & Hupdate & Hinv); [lia|].
  split; [exact Hcreate|]. split.
  - apply Hupdate. eexists. vm_compute. reflexivity.
  - apply Hinv. apply reachable_run. constructor.
Defined.

(** ** Unique names *)

Lemma handle_names (s : Store) (req : Request) :
  names_unique StorageLocation.name (StorageLocation_objects s)
  ∧ names_unique Category.name (Category_objects s) →
  names_unique StorageLocation.name (StorageLocation_objects (handle s req).2)
  ∧ names_unique Category.name (Category_objects (handle s req).2).
Proof.
  intros [Hl Hc].
  destruct req as [[t|]|now r|k r|k r|now r|now k r|k r|r|k r|k r|r|k r|k r|now r];
    simpl; try done.
  - by destruct (inventory_entry_create_effect now s r) as [->|(e & -> & _)].
  - by destruct (inventory_entry_update_effect s k r) as [->|(e & _ & -> & _)].
  - by destruct (delete_views_effect s k r) as [[->| ->] _].
  - by destruct (item_create_effect now s r) as [->|(i & -> & _)].
  - by destruct (item_update_effect now s k r) as [->|(old & i & _ & -> & _)].
  - by destruct (delete_views_effect s k r) as [_ [->| ->]].
  - destruct (location_create_effect s r) as [->|(l & -> & Hnew)]; [done|].
    split; [|done]. simpl.
    intros j1 j2 r1 r2 [[<- <-]|[? H1]]%lookup_save_new_Some
      [[<- <-]|[? H2]]%lookup_save_new_Some Hname; try done.
    + by destruct (Hnew j2 r2 H2).
    + by destruct (Hnew j1 r1 H1).
    + by apply (Hl j1 j2 r1 r2).
  - destruct (location_update_effect s k r) as [->|(l & _ & -> & Hnew)]; [done|].
    split; [|done]. simpl.
    intros j1 j2 r1 r2 [[<- <-]|[? H1]]%lookup_insert_Some
      [[<- <-]|[? H2]]%lookup_insert_Some Hname; try done.
    + by destruct (Hnew j2 r2 H2).
    + by destruct (Hnew j1 r1 H1).
    + by apply (Hl j1 j2 r1 r2).
  - destruct (location_delete_effect s k r) as [->|(-> & _)]; [done|].
    split; [|done]. simpl.
    intros j1 j2 r1 r2 [_ H1]%lookup_delete_Some [_ H2]%lookup_delete_Some.
    by apply Hl.
  - destruct (category_create_effect s r) as [->|(c & -> & Hnew)]; [done|].
    split; [done|]. simpl.
    intros j1 j2 r1 r2 [[<- <-]|[? H1]]%lookup_save_new_Some
      [[<- <-]|[? H2]]%lookup_save_new_Some Hname; try done.
    + by destruct (Hnew j2 r2 H2).
    + by destruct (Hnew j1 r1 H1).
    + by apply (Hc j1 j2 r1 r2).
  - destruct (category_update_effect s k r) as [->|(c & _ & -> & Hnew)]; [done|].
    split; [done|]. simpl.
    intros j1 j2 r1 r2 [[<- <-]|[? H1]]%lookup_insert_Some
      [[<- <-]|[? H2]]%lookup_insert_Some Hname; try done.
    + by destruct (Hnew j2 r2 H2).
    + by destruct (Hnew j1 r1 H1).
    + by apply (Hc j1 j2 r1 r2).
  - destruct (category_delete_effect s k r) as [->|(-> & _)]; [done|].
    split; [done|]. simpl.
    intros j1 j2 r1 r2 [_ H1]%lookup_delete_Some [_ H2]%lookup_delete_Some.
    by apply Hc.
  - by destruct (usage_log_create_effect now s r)
      as [->|(k & e & q & d & n & _ & _ & _ & ->)].
Qed.

(** X3. In every store the application can reach, no two storage
    locations have the same name and no two categories have the same
    name. *)
Theorem names_stay_unique (s : Store) :
  reachable s →
  names_unique StorageLocation.name (StorageLocation_objects s)
  ∧ names_unique Category.name (Category_objects s).
Proof.
  induction 1 as [|s req _ IH].
  - split; intros j1 j2 r1 r2 H1; simpl in H1; by rewrite lookup_empty in H1.
  - by apply handle_names.
Qed.

Lemma names_stay_unique_witness :
  names_unique StorageLocation.name (StorageLocation_objects milk_store)
  ∧ names_unique Category.name (Category_objects milk_store).
Proof. apply names_stay_unique. apply reachable_run. constructor. Defined.

(** X4. Creating a storage location or a category under a name that a
    stored row already has fails with the uniqueness error on [name] and
    leaves the store as it was; updating a row fails in the same way when
    another row has the name, and a row may keep its own name. *)
Theorem duplicate_name_rejected (s : Store) (j : pk) (description : Submitted string) :
  (∀ x, StorageLocation_objects s !! j = Some x →
     (location_create s
        (POST (StorageLocationForm.Build (Value (StorageLocation.name x)) description))
      = (render "inventory/location_form.html"
           (("name", unique) :: field_errors "description" (optional_field description)),
         s))
     ∧ (∀ k, k ≠ j → is_Some (StorageLocation_objects s !! k) →
        location_update s k
          (POST (StorageLocationForm.Build (Value (StorageLocation.name x)) description))
        = (render "inventory/location_form.html"
             (("name", unique) :: field_errors "description" (optional_field description)),
           s))
     ∧ (names_unique StorageLocation.name (StorageLocation_objects s) →
        ∀ d, optional_field description = inr d →
        location_update s j
          (POST (StorageLocationForm.Build (Value (StorageLocation.name x)) description))
        = (redirect "inventory:location_list" messages_success,
           MkStore (<[j := StorageLocation.Build (StorageLocation.name x) d]>
                      (StorageLocation_objects s))
             (Category_objects s) (Item_objects s) (InventoryEntry_objects s)
             (UsageLog_objects s))))
  ∧ (∀ x, Category_objects s !! j = Some x →
     (category_create s
        (POST (CategoryForm.Build (Value (Category.name x)) description))
      = (render "inventory/category_form.html"
           (("name", unique) :: field_errors "description" (optional_field description)),
         s))
     ∧ (∀ k, k ≠ j → is_Some (Category_objects s !! k) →
        category_update s k
          (POST (CategoryForm.Build (Value (Category.name x)) description))
        = (render "inventory/category_form.html"
             (("name", unique) :: field_errors "description" (optional_field description)),
           s))).
Proof.
  split.
  - intros x Hx. split; [|split].
    + unfold location_create, StorageLocationForm.full_clean. simpl.
      unfold unique_name. by rewrite (name_taken_true _ _ None j x).
    + intros k Hk [old Hold]. unfold location_update, StorageLocationForm.full_clean.
      rewrite Hold. simpl. unfold unique_name.
      rewrite (name_taken_true _ _ (Some k) j x) by congruence. done.
    + intros Huniq d Hd. unfold location_update, StorageLocationForm.full_clean.
      rewrite Hx. simpl. unfold unique_name.
      assert (name_taken StorageLocation.name (StorageLocation_objects s) (Some j)
                (StorageLocation.name x) = false) as ->.
      { unfold name_taken. apply bool_decide_eq_false. rewrite Exists_exists.
        intros ([j' x'] & Hin & Hne & Hname). apply elem_of_map_to_list in Hin.
        simpl in *. apply Hne. f_equal. by apply (Huniq j' j x' x). }
      simpl. rewrite Hd. done.
  - intros x Hx. split.
    + unfold category_create, CategoryForm.full_clean. simpl.
      unfold unique_name. by rewrite (name_taken_true _ _ None j x).
    + intros k Hk [old Hold]. unfold category_update, CategoryForm.full_clean.
      rewrite Hold. simpl. unfold unique_name.
      rewrite (name_taken_true _ _ (Some k) j x) by congruence. done.
Qed.

Lemma pantry_store_reachable : reachable pantry_store.
Proof. unfold pantry_store, milk_store. do 2 apply reachable_run. constructor. Qed.

Lemma duplicate_name_rejected_witness :
  location_create pantry_store
    (POST (StorageLocationForm.Build (Value "Fridge") Blank))
  = (render "inventory/location_form.html" [("name", unique)], pantry_store)
  ∧ location_update pantry_store 2
      (POST (StorageLocationForm.Build (Value "Fridge") Blank))
    = (render "inventory/location_form.html" [("name", unique)], pantry_store)
  ∧ category_create pantry_store (POST (CategoryForm.Build (Value "Dairy") Blank))
    = (render "inventory/category_form.html" [("name", unique)], pantry_store)
  ∧ category_update pantry_store 2 (POST (CategoryForm.Build (Value "Dairy") Blank))
    = (render "inventory/category_form.html" [("name", unique)], pantry_store).
Proof.
  destruct (duplicate_name_rejected pantry_store 1 Blank) as [Hlocation Hcategory].
  destruct (Hlocation (StorageLocation.Build "Fridge" None)) as (H1 & H2 & _);
    [vm_compute; reflexivity|].
  destruct (Hcategory (Category.Build "Dairy" None)) as (H3 & H4);
    [vm_compute; reflexivity|].
  split; [exact H1|]. split.
  { apply H2; [lia|]. eexists. vm_compute. reflexivity. }
  split; [exact H3|].
  apply H4; [lia|]. eexists. vm_compute. reflexivity.
Defined.

(** ** Deleting rows *)

(** X5. Deleting a category that no item references, or a storage
    location that neither an item nor an inventory entry references,
    succeeds: exactly that row is removed and every other table is as it
    was. *)
Theorem unreferenced_delete_succeeds (s : Store) (k : pk) :
  (is_Some (Category_objects s !! k) →
   (∀ j i, Item_objects s !! j = Some i → Item.category i ≠ k) →
   category_delete s k (POST ())
   = (redirect "inventory:category_list" messages_success,
      MkStore (StorageLocation_objects s) (delete k (Category_objects s))
        (Item_objects s) (InventoryEntry_objects s) (UsageLog_objects s)))
  ∧ (is_Some (StorageLocation_objects s !! k) →
     (∀ j i, Item_objects s !! j = Some i → Item.default_storage_location i ≠ k) →
     (∀ j e, InventoryEntry_objects s !! j = Some e →
             InventoryEntry.storage_location e ≠ k) →
     location_delete s k (POST ())
     = (redirect "inventory:location_list" messages_success,
        MkStore (delete k (StorageLocation_objects s)) (Category_objects s)
          (Item_objects s) (InventoryEntry_objects s) (UsageLog_objects s))).
Proof.
  split.
  - intros [c Hc] Hno. apply referenced_by_false in Hno.
    unfold category_delete, Category_delete. by rewrite Hc, Hno.
  - intros [l Hl] Hitems Hentries.
    apply referenced_by_false in Hitems. apply referenced_by_false in Hentries.
    unfold location_delete, StorageLocation_delete. by rewrite Hl, Hitems, Hentries.
Qed.

Lemma forall_rows {A} (P : Z → A → Prop) `{!∀ j x, Decision (P j x)} (tbl : gmap Z A) :
  Forall (λ r, P r.1 r.2) (rows tbl) → ∀ j x, tbl !! j = Some x → P j x.
Proof.
  intros Hall j x Hj. rewrite Forall_forall in Hall.
  apply (Hall (j, x)). by apply elem_of_map_to_list.
Qed.

Lemma unreferenced_delete_succeeds_witness :
  category_delete pantry_store 3 (POST ())
  = (redirect "inventory:category_list" messages_success,
     MkStore (StorageLocation_objects pantry_store)
       (delete 3 (Category_objects pantry_store))
       (Item_objects pantry_store) (InventoryEntry_objects pantry_store)
       (UsageLog_objects pantry_store))
  ∧ location_delete pantry_store 3 (POST ())
    = (redirect "inventory:location_list" messages_success,
       MkStore (delete 3 (StorageLocation_objects pantry_store))
         (Category_objects pantry_store) (Item_objects pantry_store)
         (InventoryEntry_objects pantry_store) (UsageLog_objects pantry_store)).
Proof.
  destruct (unreferenced_delete_succeeds pantry_store 3) as [Hcategory Hlocation].
  split.
  - apply Hcategory.
    + eexists. vm_compute. reflexivity.
    + apply (forall_rows (λ _ i, Item.category i ≠ 3)).
      vm_compute. repeat constructor; discriminate.
  - apply Hlocation.
    + eexists. vm_compute. reflexivity.
    + apply (forall_rows (λ _ i, Item.default_storage_location i ≠ 3)).
      vm_compute. repeat constructor; discriminate.
    + apply (forall_rows (λ _ e, InventoryEntry.storage_location e ≠ 3)).
      vm_compute. repeat constructor; discriminate.
Defined.

(** ** Totals across writes *)

Lemma get_total_quantity_ext (s1 s2 : Store) (k : pk) :
  InventoryEntry_objects s1 = InventoryEntry_objects s2 →
  get_total_quantity s1 k = get_total_quantity s2 k.
Proof.
  intros Heq. unfold get_total_quantity, Item_inventory_entries. by rewrite Heq.
Qed.

(** The total of an item, with one stored row set apart. *)
Lemma get_total_quantity_delete (s : Store) (j : pk) (e : InventoryEntry.t) (k : pk) :
  InventoryEntry_objects s !! j = Some e →
  get_total_quantity s k
  = get_total_quantity
      (MkStore (StorageLocation_objects s) (Category_objects s) (Item_objects s)
         (delete j (InventoryEntry_objects s)) (UsageLog_objects s)) k
    + entry_share e k.
Proof.
  intros Hj.
  rewrite <- (get_total_quantity_insert
                (MkStore (StorageLocation_objects s) (Category_objects s) (Item_objects s)
                   (delete j (InventoryEntry_objects s)) (UsageLog_objects s)) j e k)
    by (simpl; apply lookup_delete_eq).
  apply get_total_quantity_ext. simpl. by rewrite insert_delete_id.
Qed.

(** The total of an item after one stored row is replaced. *)
Lemma get_total_quantity_replace (s : Store) (j : pk) (e e' : InventoryEntry.t) (k : pk) :
  InventoryEntry_objects s !! j = Some e →
  get_total_quantity
    (MkStore (StorageLocation_objects s) (Category_objects s) (Item_objects s)
       (<[j := e']> (InventoryEntry_objects s)) (UsageLog_objects s)) k
  = get_total_quantity s k - entry_share e k + entry_share e' k.
Proof.
  intros Hj.
  pose proof (get_total_quantity_delete s j e k Hj) as Hold.
  pose proof (get_total_quantity_insert
                (MkStore (StorageLocation_objects s) (Category_objects s) (Item_objects s)
                   (delete j (InventoryEntry_objects s)) (UsageLog_objects s)) j e' k
                (lookup_delete_eq _ _)) as Hnew.
  simpl in Hnew. rewrite insert_delete_eq in Hnew. unfold entry_share in *. lia.
Qed.

Lemma quantity_used_total_insert (s : Store) (tables : gmap Z UsageLog.t → Store)
    (j : pk) (u : UsageLog.t) (k : pk) :
  (∀ tbl, UsageLog_objects (tables tbl) = tbl) →
  UsageLog_objects s !! j = None →
  quantity_used_total (tables (<[j := u]> (UsageLog_objects s))) k
  = quantity_used_total s k
    + (if decide (UsageLog.inventory_entry u = k) then UsageLog.quantity_used u else 0).
Proof.
  intros Htables Hj. unfold quantity_used_total, rows. rewrite Htables.
  rewrite (builtin_sum_Permutation _
             ((λ r, UsageLog.quantity_used r.2)
              <$> filter (λ r, UsageLog.inventory_entry r.2 = k)
                    ((j, u) :: map_to_list (UsageLog_objects s)))).
  2:{ apply fmap_Permutation, filter_Permutation. by apply map_to_list_insert. }
  rewrite filter_cons. simpl.
  destruct (decide (UsageLog.inventory_entry u = k)).
  - rewrite fmap_cons, builtin_sum_cons. simpl. lia.
  - lia.
Qed.

(** X6. Deleting an inventory entry removes the entry and its usage logs
    and nothing else; the total quantity of its item drops by the
    quantity the entry had, and the totals of other items are as
    before. *)
Theorem inventory_entry_delete_cascades (s : Store) (k : pk) (e : InventoryEntry.t) :
  InventoryEntry_objects s !! k = Some e →
  ∃ s',
    inventory_entry_delete s k (POST ())
    = (redirect "inventory:inventory_list" messages_success, s')
    ∧ InventoryEntry_objects s' = delete k (InventoryEntry_objects s)
    ∧ (∀ j u, UsageLog_objects s' !! j = Some u
              ↔ UsageLog_objects s !! j = Some u ∧ UsageLog.inventory_entry u ≠ k)
    ∧ Item_objects s' = Item_objects s
    ∧ StorageLocation_objects s' = StorageLocation_objects s
    ∧ Category_objects s' = Category_objects s
    ∧ get_total_quantity s' (InventoryEntry.item e)
      = get_total_quantity s (InventoryEntry.item e) - InventoryEntry.quantity e
    ∧ (∀ i, i ≠ InventoryEntry.item e → get_total_quantity s' i = get_total_quantity s i).
Proof.
  intros He. unfold inventory_entry_delete. rewrite He.
  eexists. split; [reflexivity|]. simpl. split; [done|]. split.
  { intros j u. by rewrite map_lookup_filter_Some. }
  do 3 (split; [done|]). split.
  - rewrite (get_total_quantity_delete s k e _ He).
    unfold entry_share. rewrite decide_True by done.
    rewrite (get_total_quantity_ext (InventoryEntry_delete s k)
               (MkStore (StorageLocation_objects s) (Category_objects s) (Item_objects s)
                  (delete k (InventoryEntry_objects s)) (UsageLog_objects s))) by done.
    lia.
  - intros i Hi. rewrite (get_total_quantity_delete s k e i He).
    unfold entry_share. rewrite decide_False by done.
    rewrite (get_total_quantity_ext (InventoryEntry_delete s k)
               (MkStore (StorageLocation_objects s) (Category_objects s) (Item_objects s)
                  (delete k (InventoryEntry_objects s)) (UsageLog_objects s))) by done.
    lia.
Qed.

Lemma inventory_entry_delete_cascades_witness :
  get_total_quantity (inventory_entry_delete pantry_store 1 (POST ())).2 1 = 0
  ∧ get_total_quantity (inventory_entry_delete pantry_store 1 (POST ())).2 2 = 4.
Proof.
  destruct (inventory_entry_delete_cascades pantry_store 1 (with_quantity milk_entry 2))
    as (s' & Hrun & _ & _ & _ & _ & _ & Htotal & Hother).
  { vm_compute. reflexivity. }
  change (InventoryEntry.item (with_quantity milk_entry 2)) with 1 in Htotal, Hother.
  rewrite Hrun. cbn [snd]. split.
  - rewrite Htotal. vm_compute. reflexivity.
  - rewrite (Hother 2) by lia. vm_compute. reflexivity.
Defined.

(** X7. A usage that succeeds takes its quantity off the total of the
    entry's item and leaves the totals of all other items unchanged; for
    the entry, its quantity plus what its usage logs add up to is the same
    before and after, and nothing changes for other entries. *)
Theorem usage_log_create_totals (now : datetime) (s s' : Store)
    (data : UsageLogForm.POST) (to : string) (m : Message) :
  usage_log_create now s (POST data) = (redirect to m, s') →
  ∃ k e e' q,
    UsageLogForm.inventory_entry data = Value k
    ∧ UsageLogForm.quantity_used data = Value q
    ∧ InventoryEntry_objects s !! k = Some e
    ∧ InventoryEntry_objects s' !! k = Some e'
    ∧ get_total_quantity s' (InventoryEntry.item e)
      = get_total_quantity s (InventoryEntry.item e) - q
    ∧ (∀ i, i ≠ InventoryEntry.item e → get_total_quantity s' i = get_total_quantity s i)
    ∧ InventoryEntry.quantity e' + quantity_used_total s' k
      = InventoryEntry.quantity e + quantity_used_total s k
    ∧ (∀ j, j ≠ k →
         InventoryEntry_objects s' !! j = InventoryEntry_objects s !! j
         ∧ quantity_used_total s' j = quantity_used_total s j).
Proof.
  intros (k & e & q & d & n & Hk & Hq & He & Hpos & Hle & ->)%usage_log_create_success_inv.
  exists k, e, (with_quantity e (InventoryEntry.quantity e - q)), q.
  do 3 (split; [done|]). simpl. split; [by rewrite lookup_insert_eq|].
  assert (∀ i, get_total_quantity
                 (MkStore (StorageLocation_objects s) (Category_objects s) (Item_objects s)
                    (<[k := with_quantity e (InventoryEntry.quantity e - q)]>
                       (InventoryEntry_objects s))
                    (save_new (UsageLog_objects s) (UsageLog.Build k q d n now))) i
               = get_total_quantity s i - entry_share e i
                 + entry_share (with_quantity e (InventoryEntry.quantity e - q)) i)
    as Htotal.
  { intros i. rewrite <- (get_total_quantity_replace s k e _ i He).
    by apply get_total_quantity_ext. }
  assert (∀ j, quantity_used_total
                 (MkStore (StorageLocation_objects s) (Category_objects s) (Item_objects s)
                    (<[k := with_quantity e (InventoryEntry.quantity e - q)]>
                       (InventoryEntry_objects s))
                    (save_new (UsageLog_objects s) (UsageLog.Build k q d n now))) j
               = quantity_used_total s j + (if decide (k = j) then q else 0))
    as Hused.
  { intros j.
    apply (quantity_used_total_insert s
             (λ tbl, MkStore (StorageLocation_objects s) (Category_objects s)
                       (Item_objects s)
                       (<[k := with_quantity e (InventoryEntry.quantity e - q)]>
                          (InventoryEntry_objects s)) tbl)
             (next_pk (UsageLog_objects s)) (UsageLog.Build k q d n now) j);
      [done|apply next_pk_fresh]. }
  split; [|split; [|split]].
  - rewrite Htotal. unfold entry_share. simpl. rewrite !decide_True by done. lia.
  - intros i Hi. rewrite Htotal. unfold entry_share. simpl.
    rewrite !decide_False by done. lia.
  - rewrite Hused, decide_True by done. lia.
  - intros j Hj. split; [by rewrite lookup_insert_ne|].
    rewrite Hused, decide_False by done. lia.
Qed.

Lemma usage_log_create_totals_witness :
  let s' := (usage_log_create 113 pantry_store
               (POST (UsageLogForm.Build (Value 1) (Value 2) (Value 738890) Blank))).2 in
  get_total_quantity s' 1 = get_total_quantity pantry_store 1 - 2
  ∧ get_total_quantity s' 2 = get_total_quantity pantry_store 2.
Proof.
  intros s'.
  assert (usage_log_create 113 pantry_store
            (POST (UsageLogForm.Build (Value 1) (Value 2) (Value 738890) Blank))
          = (redirect "inventory:inventory_list" messages_success, s')) as Hrun.
  { vm_compute. reflexivity. }
  assert (InventoryEntry_objects pantry_store !! 1 = Some (with_quantity milk_entry 2))
    as Hentry.
  { vm_compute. reflexivity. }
  destruct (usage_log_create_totals _ _ _ _ _ _ Hrun)
    as (k & e & e' & q & Hk & Hq & He & _ & Htotal & Hother & _).
  cbn in Hk, Hq. injection Hk as <-. injection Hq as <-.
  rewrite Hentry in He. injection He as <-.
  change (InventoryEntry.item (with_quantity milk_entry 2)) with 1 in Htotal, Hother.
  split; [exact Htotal|]. apply Hother. lia.
Defined.

(** ** Lists ordered by expiration date *)

#[global] Instance expiration_le_total : Total expiration_le.
Proof. intros a b. unfold expiration_le. lia. Qed.

#[global] Instance expiration_le_transitive : Transitive expiration_le.
Proof. intros a b c. unfold expiration_le. lia. Qed.


Lemma StronglySorted_order_by_expiration_date (l : list (Z * InventoryEntry.t)) :
  StronglySorted expiration_le (order_by_expiration_date l).
Proof. apply StronglySorted_merge_sort; apply _. Qed.

(** X8. The dashboard lists at most five entries as expiring soon, in the
    order of their expiration dates, and they are the soonest: an entry in
    stock that expires within the seven days is either listed, or the list
    is full and everything listed expires no later than it. *)
Theorem dashboard_expiring_soon_soonest (today : date) (s : Store) (k : pk)
    (e : InventoryEntry.t) :
  let shown := dashboard_context.expiring_soon (dashboard today s) in
  (length shown ≤ 5)%nat
  ∧ dashboard_context.expiring_soon_count (dashboard today s) = length shown
  ∧ StronglySorted expiration_le shown
  ∧ (InventoryEntry_objects s !! k = Some e →
     today ≤ InventoryEntry.expiration_date e ≤ today + 7 →
     0 < InventoryEntry.quantity e →
     (k, e) ∈ shown
     ∨ (length shown = 5%nat
        ∧ ∀ r, r ∈ shown →
               InventoryEntry.expiration_date r.2 ≤ InventoryEntry.expiration_date e)).
Proof.
  simpl.
  set (l := order_by_expiration_date _).
  assert (StronglySorted expiration_le (take 5 l ++ drop 5 l)) as Hsorted.
  { rewrite take_drop. apply StronglySorted_order_by_expiration_date. }
  split; [rewrite length_take; lia|]. split; [done|].
  split; [by apply StronglySorted_app_1_l in Hsorted|].
  intros He [Hge Hle] Hpos.
  assert ((k, e) ∈ take 5 l ++ drop 5 l) as [Hin|Hin]%elem_of_app.
  { rewrite take_drop. apply elem_of_order_by_expiration_date, list_elem_of_filter.
    split; [done|]. by apply elem_of_map_to_list. }
  - by left.
  - right. split.
    + apply length_take_le.
      destruct (decide (5 ≤ length l)%nat) as [|Hshort]; [done|].
      rewrite drop_ge in Hin by lia. by apply elem_of_nil in Hin.
    + intros r Hr.
      apply (StronglySorted_app_1_elem_of expiration_le _ _ r (k, e) Hsorted Hr Hin).
Qed.

Lemma dashboard_expiring_soon_soonest_witness :
  (1, with_quantity milk_entry 2)
  ∈ dashboard_context.expiring_soon (dashboard 738890 pantry_store).
Proof.
  destruct (dashboard_expiring_soon_soonest 738890 pantry_store 1
              (with_quantity milk_entry 2)) as (_ & _ & _ & Hsoon).
  destruct Hsoon as [Hin|[Hfull _]].
  - vm_compute. reflexivity.
  - cbn. lia.
  - cbn. lia.
  - exact Hin.
  - exfalso. revert Hfull. vm_compute. discriminate.
Defined.

(** ** The inventory list *)

Lemma elem_of_inventory_list (today : date) (s : Store) (get : inventory_list_GET.t)
    (k : pk) (e : InventoryEntry.t) :
  (k, e) ∈ inventory_list today s get
  ↔ InventoryEntry_objects s !! k = Some e
    ∧ search_filter s (inventory_list_GET.search get) e = true
    ∧ category_filter s (inventory_list_GET.category get) e = true
    ∧ location_filter (inventory_list_GET.location get) e = true
    ∧ status_filter 7 (inventory_list_GET.status get) today e = true.
Proof.
  unfold inventory_list.
  rewrite !list_elem_of_filter, elem_of_order_by_expiration_date. simpl.
  unfold rows. rewrite elem_of_map_to_list. tauto.
Qed.


(** X10. Under any search, category and location, the three status values
    split the unfiltered list: each of its entries is in exactly one of the
    lists for expiring, expired and fresh, and these hold nothing else.  A
    status value other than these three filters nothing. *)
Theorem inventory_list_bands (today : date) (s : Store) (search : option string)
    (category location : option Z) :
  let listed status :=
    inventory_list today s (inventory_list_GET.Build search category location status) in
  (∀ r, r ∈ listed None →
     (r ∈ listed (Some "expiring") ∧ (r ∉ listed (Some "expired")) ∧ (r ∉ listed (Some "fresh")))
     ∨ ((r ∉ listed (Some "expiring")) ∧ r ∈ listed (Some "expired") ∧ (r ∉ listed (Some "fresh")))
     ∨ ((r ∉ listed (Some "expiring")) ∧ (r ∉ listed (Some "expired")) ∧ r ∈ listed (Some "fresh")))
  ∧ (∀ status r, r ∈ listed status → r ∈ listed None)
  ∧ (∀ status, status ≠ "expiring" → status ≠ "expired" → status ≠ "fresh" →
       listed (Some status) = listed None).
Proof.
  cbv zeta. split; [|split].
  - intros [k e]. rewrite !elem_of_inventory_list. simpl.
    intros (He & Hs & Hc & Hl & _).
    unfold status_filter. simpl.
    repeat case_bool_decide; simpl; try lia;
      first [ left; solve [intuition congruence]
            | right; left; solve [intuition congruence]
            | right; right; solve [intuition congruence] ].
  - intros status [k e]. rewrite !elem_of_inventory_list. simpl. tauto.
  - intros status H1 H2 H3. unfold inventory_list. simpl.
    apply list_filter_iff. intros [k e]. simpl. unfold status_filter.
    rewrite !bool_decide_false by congruence. done.
Qed.

Lemma inventory_list_bands_witness :
  let listed status :=
    inventory_list 738890 pantry_store (inventory_list_GET.Build None None None status) in
  (1, with_quantity milk_entry 2) ∈ listed (Some "expiring")
  ∧ (2, apples_entry) ∈ listed (Some "fresh")
  ∧ listed (Some "soon") = listed None.
Proof.
  destruct (inventory_list_bands 738890 pantry_store None None None)
    as (Hsplit & _ & Hother).
  split; [|split].
  - destruct (Hsplit (1, with_quantity milk_entry 2)) as [(H & _)|[(_ & H & _)|(_ & _ & H)]].
    + vm_compute. apply list_elem_of_here.
    + exact H.
    + exfalso. revert H. vm_compute. intros H.
      repeat (apply elem_of_cons in H as [H|H]; [discriminate H|]).
      by apply elem_of_nil in H.
    + exfalso. revert H. vm_compute. intros H.
      repeat (apply elem_of_cons in H as [H|H]; [discriminate H|]).
      by apply elem_of_nil in H.
  - destruct (Hsplit (2, apples_entry)) as [(H & _)|[(_ & H & _)|(_ & _ & H)]].
    + vm_compute. apply list_elem_of_further, list_elem_of_here.
    + exfalso. revert H. vm_compute. intros H.
      repeat (apply elem_of_cons in H as [H|H]; [discriminate H|]).
      by apply elem_of_nil in H.
    + exfalso. revert H. vm_compute. intros H.
      repeat (apply elem_of_cons in H as [H|H]; [discriminate H|]).
      by apply elem_of_nil in H.
    + exact H.
  - apply (Hother "soon"); discriminate.
Defined.

(** ** What the write views leave alone *)

(** X11. No request edits a usage log: after any request a stored usage
    log is either unchanged, or gone together with the inventory entry it
    belongs to. *)
Theorem usage_logs_never_edited (s : Store) (req : Request) (j : pk) (u : UsageLog.t) :
  UsageLog_objects s !! j = Some u →
  UsageLog_objects (handle s req).2 !! j = Some u
  ∨ (UsageLog_objects (handle s req).2 !! j = None
     ∧ InventoryEntry_objects (handle s req).2 !! UsageLog.inventory_entry u = None).
Proof.
  intros Hu.
  destruct req as [[t|]|now r|k r|k r|now r|now k r|k r|r|k r|k r|r|k r|k r|now r];
    simpl; try by left.
  - destruct (inventory_entry_create_effect now s r) as [->|(e & -> & _)]; by left.
  - destruct (inventory_entry_update_effect s k r) as [->|(e & _ & -> & _)]; by left.
  - destruct (delete_views_effect s k r) as [[->| ->] _]; [by left|]. simpl.
    destruct (decide (UsageLog.inventory_entry u = k)) as [<-|Hne].
    + right. split; [|apply lookup_delete_eq].
      apply map_lookup_filter_None. right. intros u' Hu'. simpl. congruence.
    + left. by apply map_lookup_filter_Some.
  - destruct (item_create_effect now s r) as [->|(i & -> & _)]; by left.
  - destruct (item_update_effect now s k r) as [->|(old & i & _ & -> & _)]; by left.
  - destruct (delete_views_effect s k r) as [_ [->| ->]]; [by left|]. simpl.
    destruct (InventoryEntry_objects s !! UsageLog.inventory_entry u) as [e|] eqn:He.
    + destruct (decide (InventoryEntry.item e = k)) as [Hk|Hk].
      * right. split.
        -- apply map_lookup_filter_None. right. intros u' Hu'. simpl.
           assert (u' = u) as -> by congruence.
           intros Hnone. apply map_lookup_filter_None in Hnone as [?|Hnone];
             [congruence|]. by apply (Hnone e).
        -- apply map_lookup_filter_None. right. intros e' He'. simpl. congruence.
      * left. apply map_lookup_filter_Some. split; [done|]. simpl.
        apply map_lookup_filter_None. right. intros e' He'. simpl. congruence.
    + left. apply map_lookup_filter_Some. split; [done|]. simpl.
      apply map_lookup_filter_None. by left.
  - destruct (location_create_effect s r) as [->|(l & -> & _)]; by left.
  - destruct (location_update_effect s k r) as [->|(l & _ & -> & _)]; by left.
  - destruct (location_delete_effect s k r) as [->|(-> & _)]; by left.
  - destruct (category_create_effect s r) as [->|(c & -> & _)]; by left.
  - destruct (category_update_effect s k r) as [->|(c & _ & -> & _)]; by left.
  - destruct (category_delete_effect s k r) as [->|(-> & _)]; by left.
  - destruct (usage_log_create_effect now s r)
      as [->|(k & e & q & d & n & _ & _ & _ & ->)]; [by left|].
    left. simpl. by apply lookup_save_new.
Qed.

Lemma usage_logs_never_edited_witness :
  UsageLog_objects (handle pantry_store (use_milk 113 2)).2 !! 1
  = Some (UsageLog.Build 1 1 738890 None 112)
  ∨ (UsageLog_objects (handle pantry_store (use_milk 113 2)).2 !! 1 = None
     ∧ InventoryEntry_objects (handle pantry_store (use_milk 113 2)).2
         !! UsageLog.inventory_entry (UsageLog.Build 1 1 738890 None 112) = None).
Proof.
  apply (usage_logs_never_edited pantry_store (use_milk 113 2) 1).
  vm_compute. reflexivity.
Defined.



(** X13. In a store whose references resolve, creating an inventory entry
    and then deleting it gives the store back: the new entry gets the key
    [next_pk], and no usage log can belong to it. *)
Theorem create_then_delete_entry (now : datetime) (s s1 : Store)
    (data : InventoryEntryForm.POST) (to : string) (m : Message) :
  references_resolve s →
  inventory_entry_create now s (POST data) = (redirect to m, s1) →
  is_Some (InventoryEntry_objects s1 !! next_pk (InventoryEntry_objects s))
  ∧ inventory_entry_delete s1 (next_pk (InventoryEntry_objects s)) (POST ())
    = (redirect "inventory:inventory_list" messages_success, s).
Proof.
  intros (_ & _ & Hlogs). unfold inventory_entry_create.
  destruct (InventoryEntryForm.full_clean s data) as [cd errors] eqn:Hform.
  destruct errors; [|done].
  destruct (InventoryEntryForm_valid_instance _ _ _ now Hform) as (e & -> & _).
  intros [= _ _ <-]. simpl. unfold save_new at 1. rewrite lookup_insert_eq.
  split; [by eexists|].
  unfold inventory_entry_delete. simpl. unfold save_new at 1.
  rewrite lookup_insert_eq. f_equal.
  unfold InventoryEntry_delete, save_new. simpl.
  rewrite delete_insert_eq, (delete_id _ _ (next_pk_fresh _)).
  rewrite map_filter_id; [by destruct s|].
  intros j u Hu. simpl. intros Heq. destruct (Hlogs j u Hu) as [e' He'].
  rewrite Heq, next_pk_fresh in He'. done.
Qed.

Lemma create_then_delete_entry_witness :
  inventory_entry_delete
    (inventory_entry_create 130 pantry_store (POST restock)).2
    (next_pk (InventoryEntry_objects pantry_store)) (POST ())
  = (redirect "inventory:inventory_list" messages_success, pantry_store).
Proof.
  apply (create_then_delete_entry 130 pantry_store _ restock
           "inventory:inventory_list" messages_success).
  - apply referential_integrity_of_reachable, pantry_store_reachable.
  - vm_compute. reflexivity.
Defined.

(** ** Totals of the stock *)

Lemma builtin_sum_nonneg (l : list Z) : Forall (λ x, 0 ≤ x) l → 0 ≤ builtin_sum l.
Proof.
  induction 1 as [|x l Hx _ IH]; [done|]. rewrite builtin_sum_cons. lia.
Qed.

Lemma builtin_sum_zero (l : list Z) :
  Forall (λ x, 0 ≤ x) l → (builtin_sum l = 0 ↔ Forall (λ x, x = 0) l).
Proof.
  induction 1 as [|x l Hx Hl IH]; [by split|].
  rewrite builtin_sum_cons, Forall_cons. pose proof (builtin_sum_nonneg l Hl).
  split.
  - intros Hsum. split; [lia|]. apply IH. lia.
  - intros [-> Hzero]. apply IH in Hzero. lia.
Qed.

Lemma reachable_item_quantities (s : Store) (k : pk) :
  reachable s →
  Forall (λ x, 0 ≤ x)
    ((λ r, InventoryEntry.quantity r.2) <$> Item_inventory_entries s k).
Proof.
  intros Hs. apply Forall_fmap, Forall_forall.
  intros [j e] [_ Hin]%list_elem_of_filter. apply elem_of_map_to_list in Hin.
  simpl. by destruct (reachable_ok s Hs j e Hin).
Qed.

(** X14. In every reachable store the total quantity of an item is not
    negative, and it is 0 exactly when every inventory entry of the item
    has quantity 0 (or the item has none); an item in that state with a
    threshold set is low in stock. *)
Theorem stock_totals_nonneg (s : Store) (k : pk) :
  reachable s →
  0 ≤ get_total_quantity s k
  ∧ (get_total_quantity s k = 0
     ↔ ∀ j e, InventoryEntry_objects s !! j = Some e → InventoryEntry.item e = k →
              InventoryEntry.quantity e = 0)
  ∧ (∀ i t, Item_objects s !! k = Some i → Item.low_stock_threshold i = Some t →
       get_total_quantity s k = 0 → is_low_stock s k i = true).
Proof.
  intros Hs. pose proof (reachable_item_quantities s k Hs) as Hnonneg.
  split; [by apply builtin_sum_nonneg|]. split.
  - unfold get_total_quantity. rewrite (builtin_sum_zero _ Hnonneg).
    rewrite Forall_fmap, Forall_forall. unfold Item_inventory_entries, rows. split.
    + intros Hall j e Hj Hk. apply (Hall (j, e)).
      apply list_elem_of_filter. split; [done|]. by apply elem_of_map_to_list.
    + intros Hall [j e] [Hk Hin]%list_elem_of_filter.
      apply elem_of_map_to_list in Hin. simpl in *. by apply (Hall j e).
  - intros i t Hi Ht Hzero. unfold is_low_stock. rewrite Ht, Hzero.
    apply Z.ltb_lt. by apply (reachable_thresholds s Hs k i t).
Qed.

Lemma stock_totals_nonneg_witness :
  0 ≤ get_total_quantity depleted_store 1
  ∧ is_low_stock depleted_store 1 (Item.Build "Milk" 1 1 None "gallon" (Some 2) 100 100)
    = true.
Proof.
  destruct (stock_totals_nonneg depleted_store 1) as (Hnonneg & _ & Hlow).
  { unfold depleted_store, milk_store. do 2 apply reachable_run. constructor. }
  split; [exact Hnonneg|].
  apply (Hlow _ 2); [vm_compute; reflexivity|reflexivity|vm_compute; reflexivity].
Defined.

(** ** The item page *)

#[global] Instance usage_date_ge_total : Total usage_date_ge.
Proof. intros a b. unfold usage_date_ge. lia. Qed.

#[global] Instance usage_date_ge_transitive : Transitive usage_date_ge.
Proof. intros a b c. unfold usage_date_ge. lia. Qed.

Lemma builtin_sum_filter_positive (l : list (Z * InventoryEntry.t)) :
  Forall (λ r, 0 ≤ InventoryEntry.quantity r.2) l →
  builtin_sum ((λ r, InventoryEntry.quantity r.2)
               <$> filter (λ r, 0 < InventoryEntry.quantity r.2) l)
  = builtin_sum ((λ r, InventoryEntry.quantity r.2) <$> l).
Proof.
  induction 1 as [|r l Hr _ IH]; [done|].
  rewrite filter_cons, fmap_cons, builtin_sum_cons.
  destruct (decide (0 < InventoryEntry.quantity r.2)).
  - rewrite fmap_cons, builtin_sum_cons. lia.
  - lia.
Qed.

(** X15. The item page answers 404 exactly for an unknown item.
    Otherwise it lists the item's inventory entries that are in stock, by
    expiration date, and at most ten usage logs of the item's entries,
    newest first; in a reachable store the total it shows is the sum of the
    quantities of the entries it lists. *)
Theorem item_detail_spec (s : Store) (k : pk) :
  (item_detail s k = None ↔ Item_objects s !! k = None)
  ∧ (∀ ctx, item_detail s k = Some ctx →
       Item_objects s !! k = Some (item_detail_context.item ctx)
       ∧ (∀ j e, (j, e) ∈ item_detail_context.inventory_entries ctx
                 ↔ InventoryEntry_objects s !! j = Some e
                   ∧ InventoryEntry.item e = k ∧ 0 < InventoryEntry.quantity e)
       ∧ StronglySorted expiration_le (item_detail_context.inventory_entries ctx)
       ∧ (length (item_detail_context.recent_usage ctx) ≤ 10)%nat
       ∧ StronglySorted usage_date_ge (item_detail_context.recent_usage ctx)
       ∧ (∀ j u, (j, u) ∈ item_detail_context.recent_usage ctx →
            UsageLog_objects s !! j = Some u
            ∧ ∃ e, InventoryEntry_objects s !! UsageLog.inventory_entry u = Some e
                   ∧ InventoryEntry.item e = k)
       ∧ item_detail_context.is_low_stock ctx
         = is_low_stock s k (item_detail_context.item ctx)
       ∧ (reachable s →
          item_detail_context.total_quantity ctx
          = builtin_sum ((λ r, InventoryEntry.quantity r.2)
                         <$> item_detail_context.inventory_entries ctx))).
Proof.
  unfold item_detail. destruct (Item_objects s !! k) as [item|] eqn:Hitem.
  2:{ split; [done|]. by intros ctx. }
  split; [done|]. intros ctx [= <-]. simpl.
  split; [done|]. split.
  { intros j e. rewrite elem_of_order_by_expiration_date.
    unfold Item_inventory_entries, rows.
    rewrite !list_elem_of_filter, elem_of_map_to_list. simpl. tauto. }
  split; [apply StronglySorted_order_by_expiration_date|].
  split; [rewrite length_take; lia|].
  set (l := merge_sort usage_date_ge _).
  assert (StronglySorted usage_date_ge (take 10 l ++ drop 10 l)) as Hsorted.
  { rewrite take_drop. apply StronglySorted_merge_sort; apply _. }
  split; [by apply StronglySorted_app_1_l in Hsorted|]. split.
  { intros j u Hin. apply subseteq_take in Hin. unfold l in Hin.
    rewrite merge_sort_Permutation in Hin.
    apply list_elem_of_filter in Hin as [Hitem' Hin].
    apply elem_of_map_to_list in Hin. simpl in *. split; [done|].
    destruct (InventoryEntry_objects s !! UsageLog.inventory_entry u) as [e|];
      [|done].
    exists e. split; [done|]. by injection Hitem'. }
  split; [done|]. intros Hs.
  unfold order_by_expiration_date.
  rewrite (builtin_sum_Permutation _ _
             (fmap_Permutation _ _ _ (merge_sort_Permutation _ _))).
  rewrite builtin_sum_filter_positive; [done|].
  pose proof (reachable_item_quantities s k Hs) as Hnonneg.
  by rewrite Forall_fmap in Hnonneg.
Qed.

Lemma item_detail_spec_witness :
  ∃ ctx, item_detail depleted_store 1 = Some ctx
         ∧ item_detail_context.inventory_entries ctx = []
         ∧ item_detail_context.total_quantity ctx
           = builtin_sum ((λ r, InventoryEntry.quantity r.2)
                          <$> item_detail_context.inventory_entries ctx).
Proof.
  destruct (item_detail depleted_store 1) as [ctx|] eqn:Hctx.
  - destruct (item_detail_spec depleted_store 1) as [_ Hspec].
    destruct (Hspec ctx Hctx) as (_ & _ & _ & _ & _ & _ & _ & Htotal).
    exists ctx. split; [done|]. split.
    + revert Hctx. vm_compute. by intros [= <-].
    + apply Htotal. unfold depleted_store, milk_store.
      do 2 apply reachable_run. constructor.
  - exfalso. revert Hctx. vm_compute. discriminate.
Defined.

(** ** Counts per category and per storage location *)

Lemma length_filter_zero {A} (P : A → Prop) `{!∀ x, Decision (P x)} (l : list A) :
  length (filter P l) = 0%nat ↔ ∀ x, x ∈ l → ¬ P x.
Proof.
  split.
  - intros Hlen x Hin HP. apply nil_length_inv in Hlen.
    by apply (filter_nil_not_elem_of P l x).
  - intros Hall. induction l as [|x l IH]; [done|].
    rewrite filter_cons_False by (apply Hall; left).
    apply IH. intros y Hy. apply Hall. by right.
Qed.

Lemma Category_item_count_zero (s : Store) (k : pk) :
  Category_item_count s k = 0%nat
  ↔ ∀ j i, Item_objects s !! j = Some i → Item.category i ≠ k.
Proof.
  unfold Category_item_count. rewrite length_filter_zero. unfold rows. split.
  - intros Hall j i Hj. apply (Hall (j, i)). by apply elem_of_map_to_list.
  - intros Hall [j i] Hin%elem_of_map_to_list. by apply (Hall j i).
Qed.

(** X16. The category list shows every category once, with the number of
    items in it; a category can be deleted exactly when that number
    is 0. *)
Theorem category_list_counts (s : Store) :
  (∀ k c n, (k, c, n) ∈ category_list s
            ↔ Category_objects s !! k = Some c ∧ n = Category_item_count s k)
  ∧ length (category_list s) = size (Category_objects s)
  ∧ (∀ k, Category_item_count s k
          = size (filter (λ r, Item.category r.2 = k) (Item_objects s)))
  ∧ (∀ k, is_Some (Category_objects s !! k) →
       (Category_item_count s k = 0%nat
        ↔ ∃ s', category_delete s k (POST ())
                = (redirect "inventory:category_list" messages_success, s'))).
Proof.
  split; [|split; [|split]].
  - intros k c n. unfold category_list, order_by_name, rows.
    rewrite list_elem_of_fmap. split.
    + intros ([k' c'] & [= -> -> ->] & Hin).
      rewrite merge_sort_Permutation in Hin. by apply elem_of_map_to_list in Hin.
    + intros [Hk ->]. exists (k, c). split; [done|].
      rewrite merge_sort_Permutation. by apply elem_of_map_to_list.
  - unfold category_list, order_by_name, rows.
    rewrite length_fmap, merge_sort_Permutation. apply length_map_to_list.
  - intros k. apply length_filter_rows.
  - intros k [c Hc]. rewrite Category_item_count_zero, <- referenced_by_false.
    unfold category_delete, Category_delete. rewrite Hc.
    destruct (referenced_by Item.category (Item_objects s) k).
    + split; [done|]. by intros [s' Hs'].
    + split; [|done]. intros _. by eexists.
Qed.

Lemma category_list_counts_witness :
  (Category_item_count pantry_store 3 = 0%nat
   ↔ ∃ s', category_delete pantry_store 3 (POST ())
           = (redirect "inventory:category_list" messages_success, s'))
  ∧ Category_item_count pantry_store 3 = 0%nat
  ∧ Category_item_count pantry_store 1 = 1%nat.
Proof.
  destruct (category_list_counts pantry_store) as (_ & _ & _ & Hdelete).
  split; [|split; vm_compute; reflexivity].
  apply Hdelete. eexists. vm_compute. reflexivity.
Defined.

(** X17. The location list shows every storage location once, with the
    number of inventory entries in stock that are kept there; a location
    that can be deleted shows 0, and entries without stock are not
    counted. *)
Theorem location_list_counts (s : Store) :
  (∀ k l n, (k, l, n) ∈ location_list s
            ↔ StorageLocation_objects s !! k = Some l
              ∧ n = StorageLocation_item_count s k)
  ∧ length (location_list s) = size (StorageLocation_objects s)
  ∧ (∀ k, StorageLocation_item_count s k
          = size (filter (λ r, InventoryEntry.storage_location r.2 = k
                               ∧ 0 < InventoryEntry.quantity r.2)
                    (InventoryEntry_objects s)))
  ∧ (∀ k s', location_delete s k (POST ())
             = (redirect "inventory:location_list" messages_success, s') →
       StorageLocation_item_count s k = 0%nat).
Proof.
  split; [|split; [|split]].
  - intros k l n. unfold location_list, order_by_name, rows.
    rewrite list_elem_of_fmap. split.
    + intros ([k' l'] & [= -> -> ->] & Hin).
      rewrite merge_sort_Permutation in Hin. by apply elem_of_map_to_list in Hin.
    + intros [Hk ->]. exists (k, l). split; [done|].
      rewrite merge_sort_Permutation. by apply elem_of_map_to_list.
  - unfold location_list, order_by_name, rows.
    rewrite length_fmap, merge_sort_Permutation. apply length_map_to_list.
  - intros k. apply length_filter_rows.
  - intros k s'. unfold location_delete, StorageLocation_delete.
    destruct (StorageLocation_objects s !! k); [|done].
    destruct (referenced_by Item.default_storage_location _ k); [done|].
    destruct (referenced_by InventoryEntry.storage_location _ k) eqn:Href; [done|].
    intros _. unfold StorageLocation_item_count. apply length_filter_zero.
    intros [j e] Hin%elem_of_map_to_list [Hloc _]. simpl in Hloc.
    by apply (proj1 (referenced_by_false _ _ _) Href j e).
Qed.

Lemma location_list_counts_witness :
  StorageLocation_item_count pantry_store 3 = 0%nat
  ∧ StorageLocation_item_count depleted_store 1 = 0%nat
  ∧ StorageLocation_item_count pantry_store 1 = 1%nat.
Proof.
  destruct (location_list_counts pantry_store) as (_ & _ & _ & Hdelete).
  split; [|split; vm_compute; reflexivity].
  apply (Hdelete 3 (location_delete pantry_store 3 (POST ())).2).
  vm_compute. reflexivity.
Defined.

(** ** The low-stock list of the dashboard *)

(** X18. The dashboard lists at most five items as low in stock; each
    listed item has a threshold, and its current quantity is its total and
    is below the threshold.  When fewer than five are listed, every item
    that is low in stock is listed. *)
Theorem dashboard_low_stock_items_spec (s : Store) :
  let shown := dashboard_low_stock_items s in
  (length shown ≤ 5)%nat
  ∧ (∀ row, row ∈ shown →
       Item_objects s !! (low_stock_row.item row).1 = Some (low_stock_row.item row).2
       ∧ low_stock_row.threshold row
         = Item.low_stock_threshold (low_stock_row.item row).2
       ∧ low_stock_row.current_quantity row
         = get_total_quantity s (low_stock_row.item row).1
       ∧ ∃ t, low_stock_row.threshold row = Some t
              ∧ low_stock_row.current_quantity row < t)
  ∧ ((length shown < 5)%nat →
     ∀ k i t, Item_objects s !! k = Some i → Item.low_stock_threshold i = Some t →
              get_total_quantity s k < t →
              low_stock_row.Build (k, i) (get_total_quantity s k) (Some t) ∈ shown).
Proof.
  cbv zeta. unfold dashboard_low_stock_items.
  set (l := filter _ (filter _ _)).
  split; [rewrite length_take; lia|]. split.
  - intros row Hin. apply subseteq_take in Hin.
    apply list_elem_of_fmap in Hin as ([k i] & -> & Hin). simpl.
    unfold l in Hin. rewrite !list_elem_of_filter in Hin.
    destruct Hin as (Hlow & Hset & Hin). simpl in *.
    unfold order_by_name in Hin. rewrite merge_sort_Permutation in Hin.
    apply elem_of_map_to_list in Hin. split; [done|]. do 2 (split; [done|]).
    unfold is_low_stock in Hlow.
    destruct (Item.low_stock_threshold i) as [t|]; [|done].
    exists t. split; [done|]. by apply Z.ltb_lt.
  - rewrite length_take, length_fmap. intros Hshort k i t Hk Ht Hlow.
    rewrite take_ge by (rewrite length_fmap; lia).
    apply list_elem_of_fmap. exists (k, i). simpl. split; [by rewrite Ht|].
    unfold l. rewrite !list_elem_of_filter. simpl. split; [|split].
    + unfold is_low_stock. rewrite Ht. by apply Z.ltb_lt.
    + by rewrite Ht.
    + unfold order_by_name. rewrite merge_sort_Permutation.
      by apply elem_of_map_to_list.
Qed.

Lemma dashboard_low_stock_items_spec_witness :
  low_stock_row.Build (1, Item.Build "Milk" 1 1 None "gallon" (Some 2) 100 100)
    (get_total_quantity depleted_store 1) (Some 2)
  ∈ dashboard_low_stock_items depleted_store.
Proof.
  destruct (dashboard_low_stock_items_spec depleted_store) as (_ & _ & Hcomplete).
  apply Hcomplete.
  - vm_compute. lia.
  - vm_compute. reflexivity.
  - reflexivity.
  - vm_compute. reflexivity.
Defined.

(** ** Stock after creating or editing an inventory entry *)

(** X19. A successful creation stores the submitted entry under the new
    key [next_pk], stamped with the time of the request, leaves every
    stored entry and usage log as it was, and adds the entry's quantity to
    the total of its item only. *)
Theorem inventory_entry_create_adds (now : datetime) (s s' : Store)
    (data : InventoryEntryForm.POST) (to : string) (m : Message) :
  inventory_entry_create now s (POST data) = (redirect to m, s') →
  ∃ e,
    InventoryEntry_objects s !! next_pk (InventoryEntry_objects s) = None
    ∧ InventoryEntry_objects s' !! next_pk (InventoryEntry_objects s) = Some e
    ∧ InventoryEntryForm.item data = Value (InventoryEntry.item e)
    ∧ InventoryEntryForm.quantity data = Value (InventoryEntry.quantity e)
    ∧ InventoryEntryForm.storage_location data = Value (InventoryEntry.storage_location e)
    ∧ InventoryEntryForm.purchase_date data = Value (InventoryEntry.purchase_date e)
    ∧ InventoryEntryForm.expiration_date data = Value (InventoryEntry.expiration_date e)
    ∧ InventoryEntry.date_added e = now
    ∧ (∀ j x, InventoryEntry_objects s !! j = Some x →
              InventoryEntry_objects s' !! j = Some x)
    ∧ UsageLog_objects s' = UsageLog_objects s
    ∧ (∀ i, get_total_quantity s' i = get_total_quantity s i + entry_share e i).
Proof.
  unfold inventory_entry_create.
  destruct (InventoryEntryForm.full_clean s data) as [cd errors] eqn:Hform.
  destruct errors; [|done].
  apply InventoryEntryForm_valid_inv in Hform
    as (i & q & l & p & x & n & Hi & Hq & Hl & Hp & Hx & _ & _ & _ & _ & _ & ->).
  simpl. intros [= _ _ <-]. eexists. simpl.
  split; [apply next_pk_fresh|]. unfold save_new at 1. rewrite lookup_insert_eq.
  split; [reflexivity|]. simpl. do 6 (split; [done|]).
  split; [intros j y Hj; by apply lookup_save_new|]. split; [done|].
  intros k. unfold save_new, entry_share.
  apply get_total_quantity_insert, next_pk_fresh.
Qed.

Lemma inventory_entry_create_adds_witness :
  let s' := (inventory_entry_create 130 pantry_store (POST restock)).2 in
  ∃ e, InventoryEntry_objects s' !! 3 = Some e
       ∧ InventoryEntry.quantity e = 3
       ∧ get_total_quantity s' 1 = get_total_quantity pantry_store 1 + entry_share e 1.
Proof.
  intros s'.
  assert (inventory_entry_create 130 pantry_store (POST restock)
          = (redirect "inventory:inventory_list" messages_success, s')) as Hrun.
  { vm_compute. reflexivity. }
  destruct (inventory_entry_create_adds _ _ _ _ _ _ Hrun)
    as (e & _ & He & _ & Hq & _ & _ & _ & _ & _ & _ & Htotal).
  exists e. split.
  - rewrite <- He. f_equal.
  - split; [|apply Htotal]. cbn in Hq. by injection Hq as <-.
Defined.

(** X20. A successful edit of an inventory entry rewrites that entry
    with the submitted values and keeps its [date_added]; the other
    entries and all usage logs stay as they were, and the total of each
    item changes by what the entry added to it before and adds now. *)
Theorem inventory_entry_update_replaces (s s' : Store) (k : pk) (old : InventoryEntry.t)
    (data : InventoryEntryForm.POST) (to : string) (m : Message) :
  InventoryEntry_objects s !! k = Some old →
  inventory_entry_update s k (POST data) = (redirect to m, s') →
  ∃ e,
    InventoryEntry_objects s' = <[k := e]> (InventoryEntry_objects s)
    ∧ InventoryEntryForm.item data = Value (InventoryEntry.item e)
    ∧ InventoryEntryForm.quantity data = Value (InventoryEntry.quantity e)
    ∧ InventoryEntryForm.storage_location data = Value (InventoryEntry.storage_location e)
    ∧ InventoryEntryForm.purchase_date data = Value (InventoryEntry.purchase_date e)
    ∧ InventoryEntryForm.expiration_date data = Value (InventoryEntry.expiration_date e)
    ∧ InventoryEntry.date_added e = InventoryEntry.date_added old
    ∧ UsageLog_objects s' = UsageLog_objects s
    ∧ (∀ i, get_total_quantity s' i
            = get_total_quantity s i - entry_share old i + entry_share e i).
Proof.
  intros Hold. unfold inventory_entry_update. rewrite Hold.
  destruct (InventoryEntryForm.full_clean s data) as [cd errors] eqn:Hform.
  destruct errors; [|done].
  apply InventoryEntryForm_valid_inv in Hform
    as (i & q & l & p & x & n & Hi & Hq & Hl & Hp & Hx & _ & _ & _ & _ & _ & ->).
  simpl. intros [= _ _ <-]. eexists. simpl.
  split; [reflexivity|]. simpl. do 7 (split; [done|]).
  intros j. by apply get_total_quantity_replace.
Qed.

Lemma inventory_entry_update_replaces_witness :
  let s' := (inventory_entry_update depleted_store 1 (POST restock)).2 in
  ∃ e, InventoryEntry_objects s' = <[1 := e]> (InventoryEntry_objects depleted_store)
       ∧ InventoryEntry.date_added e = 101
       ∧ UsageLog_objects s' = UsageLog_objects depleted_store.
Proof.
  intros s'.
  assert (inventory_entry_update depleted_store 1 (POST restock)
          = (redirect "inventory:inventory_list" messages_success, s')) as Hrun.
  { vm_compute. reflexivity. }
  assert (InventoryEntry_objects depleted_store !! 1 = Some (with_quantity milk_entry 0))
    as Hold.
  { vm_compute. reflexivity. }
  destruct (inventory_entry_update_replaces _ _ _ _ _ _ _ Hold Hrun)
    as (e & He & _ & _ & _ & _ & _ & Hadded & Hlogs & _).
  exists e. done.
Defined.

(** ** The expiration column of the admin list *)

Lemma pretty_N_go_head (x : N) (s : string) :
  (0 < x)%N ∨ (∃ n rest, s = String (pretty_N_char n) rest) →
  ∃ n rest, pretty_N_go x s = String (pretty_N_char n) rest.
Proof.
  revert s. induction (N.lt_wf_0 x) as [x _ IH]. intros s Hcase.
  destruct (decide (0 < x)%N) as [Hpos|Hzero].
  - rewrite pretty_N_go_step by done.
    apply IH; [by apply N.div_lt|]. right. eauto.
  - assert (x = 0%N) as -> by lia. rewrite pretty_N_go_0.
    destruct Hcase as [?|?]; [lia|done].
Qed.

Lemma pretty_positive_head (d : Z) :
  0 < d → ∃ n rest, pretty d = String (pretty_N_char n) rest.
Proof.
  destruct d as [|p|p]; try lia. intros _.
  unfold pretty, pretty_Z, pretty, pretty_positive, pretty, pretty_N.
  rewrite decide_False by done. apply pretty_N_go_head. left. lia.
Qed.

Lemma pretty_N_char_not_E (n : N) : pretty_N_char n ≠ "E"%char.
Proof. unfold pretty_N_char. repeat case_match; discriminate. Qed.

(** X21. The expiration column of the admin list reads "Expired N days
    ago", with N the number of days since the expiration date, exactly for
    an expired entry, "Expires today" exactly for an entry that expires
    today, and otherwise the number of days left followed by " days". *)
Theorem admin_days_until_expiration_column (today : date) (obj : InventoryEntry.t) :
  let d := days_until_expiration today obj in
  let text := InventoryEntryAdmin.days_until_expiration today obj in
  (is_expired today obj = true ↔ ∃ rest, text = "Expired " +:+ rest)
  ∧ (is_expired today obj = true → text = "Expired " +:+ pretty (- d) +:+ " days ago")
  ∧ (InventoryEntry.expiration_date obj = today ↔ text = "Expires today")
  ∧ (0 < d → text = pretty d +:+ " days").
Proof.
  cbv zeta. unfold InventoryEntryAdmin.days_until_expiration, is_expired.
  set (d := days_until_expiration today obj).
  assert (InventoryEntry.expiration_date obj = today ↔ d = 0) as Htoday.
  { unfold d, days_until_expiration. simpl. lia. }
  rewrite Htoday, Z.ltb_lt.
  destruct (bool_decide_reflect (d < 0)) as [Hneg|Hnneg].
  - split; [split; [intros _; by eexists|done]|].
    split; [intros _; by rewrite (Z.abs_neq d) by lia|]. split; [|lia].
    split; [lia|]. simpl. discriminate.
  - destruct (bool_decide_reflect (d = 0)) as [Hzero|Hnzero].
    + split; [split; [lia|]; intros [rest Hrest]; simpl in Hrest; discriminate|].
      split; [lia|]. split; [done|lia].
    + destruct (pretty_positive_head d) as (n & rest & Hpretty); [lia|].
      pose proof (pretty_N_char_not_E n) as HnE.
      rewrite Hpretty. simpl.
      split; [split; [lia|]; intros [rest' [= Hhead _]]; done|].
      split; [lia|]. split; [|done].
      split; [lia|]. intros [= Hhead _]. done.
Qed.

Lemma admin_days_until_expiration_column_witness :
  InventoryEntryAdmin.days_until_expiration 738900 milk_entry = "Expired 5 days ago"
  ∧ InventoryEntryAdmin.days_until_expiration 738880 milk_entry = "15 days".
Proof.
  destruct (admin_days_until_expiration_column 738900 milk_entry) as (_ & Hexpired & _).
  destruct (admin_days_until_expiration_column 738880 milk_entry) as (_ & _ & _ & Hleft).
  split.
  - rewrite Hexpired by reflexivity. vm_compute. reflexivity.
  - rewrite Hleft by (vm_compute; reflexivity). vm_compute. reflexivity.
Defined.

